(** * A shallow embedding of the yt-dlp service of youtube-tools

    Sources: [internal/utils/utils.go] (hex codec) and
    [internal/ytdlp/ytdlp.go] (URL check, format ids, task registry,
    download runner, metadata fetch, format selection, task cleanup).

    Conventions of the model:
    - Go strings are byte strings: they are [String.string] here, whose
      characters ([ascii]) are bytes.
    - Go's multiple results [(v1, ..., err)] are tuples whose last
      component is [option string]: [None] is a nil error, [Some msg] an
      error with its message.  Zero values are returned on error, as Go
      does.
    - [time.Time] is a number of nanoseconds (Z) since the Unix epoch;
      the zero [time.Time{}] is [zero_time] (January 1st of year 1).
    - The standard library functions the code calls ([url.Parse],
      [json.Unmarshal]) are parameters of the sections that use them;
      [hex], [strconv] and [strings.Split] are modelled. *)

From Stdlib Require Import ZArith QArith Lia Lqa Ascii String.
From stdpp Require Import base gmap strings list fin_maps.

Open Scope string_scope.

(* ------------------------------------------------------------------ *)
(** ** Go strings: helpers *)

Definition ch (n : N) : ascii := ascii_of_N n.

(** [strings.HasPrefix] *)
Fixpoint HasPrefix (s prefix : string) {struct prefix} : bool :=
  match prefix, s with
  | EmptyString, _ => true
  | String p pr, String c r => Ascii.eqb p c && HasPrefix r pr
  | String _ _, EmptyString => false
  end.

(** [strings.Contains] *)
Fixpoint Contains (s sub : string) : bool :=
  HasPrefix s sub ||
  match s with
  | EmptyString => false
  | String _ r => Contains r sub
  end.

(** [strings.Split(s, "__")]: the leftmost occurrence of the separator
    is cut first, so a character that does not start a ["__"] belongs to
    the first field. *)
Definition cons_first (c : ascii) (l : list string) : list string :=
  match l with
  | [] => [String c EmptyString]
  | h :: t => String c h :: t
  end.

Fixpoint SplitUU (s : string) : list string :=
  match s with
  | EmptyString => [EmptyString]
  | String c rest =>
      match rest with
      | EmptyString => [String c EmptyString]
      | String c' rest' =>
          if Ascii.eqb c "_" && Ascii.eqb c' "_"
          then EmptyString :: SplitUU rest'
          else cons_first c (SplitUU rest)
      end
  end.

(* ------------------------------------------------------------------ *)
(** ** [internal/utils]: [ToHex] and [FromHex]
    ([hex.EncodeToString] writes lower-case digits; [hex.DecodeString]
    accepts both cases and fails on an odd length or a non-hex byte). *)

Definition hex_char (n : N) : ascii :=
  if (n <? 10)%N then ch (48 + n) else ch (87 + n).

Fixpoint ToHex (s : string) : string :=
  match s with
  | EmptyString => EmptyString
  | String c r =>
      String (hex_char (N_of_ascii c / 16))
        (String (hex_char (N_of_ascii c mod 16)) (ToHex r))
  end.

Definition from_hex_char (c : ascii) : option N :=
  let n := N_of_ascii c in
  if (48 <=? n)%N && (n <=? 57)%N then Some (n - 48)%N
  else if (97 <=? n)%N && (n <=? 102)%N then Some (n - 87)%N
  else if (65 <=? n)%N && (n <=? 70)%N then Some (n - 55)%N
  else None.

Definition hex_pair (a b : ascii) : option ascii :=
  match from_hex_char a, from_hex_char b with
  | Some x, Some y => Some (ch (x * 16 + y))
  | _, _ => None
  end.

(** [FromHex s] is [(string(bytes), nil)] or [("", err)]. *)
Fixpoint hex_decode (s : string) : option string :=
  match s with
  | EmptyString => Some EmptyString
  | String _ EmptyString => None
  | String a (String b r) =>
      match hex_pair a b, hex_decode r with
      | Some c, Some d => Some (String c d)
      | _, _ => None
      end
  end.

Definition FromHex (s : string) : string * option string :=
  match hex_decode s with
  | Some d => (d, None)
  | None => ("", Some "encoding/hex: invalid byte")
  end.

(* ------------------------------------------------------------------ *)
(** ** [strconv] and [fmt]'s [%d] on 64-bit integers *)

Definition digit_char (d : N) : ascii := ch (48 + d).

Definition is_digit (c : ascii) : bool :=
  (48 <=? N_of_ascii c)%N && (N_of_ascii c <=? 57)%N.

(** Decimal digits of [n], most significant first, before [acc];
    [fuel] bounds the number of divisions by ten. *)
Fixpoint dec_digits (fuel : nat) (n : N) (acc : string) : string :=
  match fuel with
  | O => String (digit_char n) acc
  | S f =>
      if (n <? 10)%N then String (digit_char n) acc
      else dec_digits f (n / 10) (String (digit_char (n mod 10)) acc)
  end.

Definition fmt_uint (n : N) : string := dec_digits (N.to_nat n) n EmptyString.

(** [fmt.Sprintf("%d", z)] *)
Definition fmt_int (z : Z) : string :=
  if (z <? 0)%Z then String "-" (fmt_uint (Z.to_N (- z)))
  else fmt_uint (Z.to_N z).

Fixpoint digits_val (s : string) (acc : N) : option N :=
  match s with
  | EmptyString => Some acc
  | String c r =>
      if is_digit c then digits_val r (acc * 10 + (N_of_ascii c - 48))%N
      else None
  end.

(** [strconv.ParseUint(s, 10, 64)]: a syntax error on an empty string or
    a non-digit, a range error above [2^64 - 1]. *)
Definition ParseUint (s : string) : option N :=
  match s with
  | EmptyString => None
  | _ =>
      match digits_val s 0 with
      | Some n => if (n <=? 2 ^ 64 - 1)%N then Some n else None
      | None => None
      end
  end.

(** [strconv.ParseInt(s, 10, 64)] (and [strconv.Atoi] on 64 bits). *)
Definition ParseInt (s : string) : option Z :=
  match s with
  | EmptyString => None
  | String c r =>
      let '(neg, body) :=
        if Ascii.eqb c "+" then (false, r)
        else if Ascii.eqb c "-" then (true, r)
        else (false, s) in
      match ParseUint body with
      | None => None
      | Some u =>
          if neg then (if (u <=? 2 ^ 63)%N then Some (- Z.of_N u)%Z else None)
          else (if (u <? 2 ^ 63)%N then Some (Z.of_N u) else None)
      end
  end.

Definition int64_range (z : Z) : Prop := (- 2 ^ 63 <= z < 2 ^ 63)%Z.

(* ------------------------------------------------------------------ *)
(** ** Format ids ([buildAudioFormatID], [ParseAudioFormatID], ...) *)

Definition buildAudioFormatID (ext : string) (asr : Z) (formatID : string) : string :=
  ToHex ("a__" +:+ ext +:+ "__" +:+ fmt_int asr +:+ "__" +:+ formatID).

Definition buildVideoFormatID (ext resolution vFormatID aFormatID : string) : string :=
  let aFormatID := if String.eqb aFormatID "" then aFormatID else "+" +:+ aFormatID in
  ToHex ("v__" +:+ ext +:+ "__" +:+ resolution +:+ "__" +:+ vFormatID +:+ aFormatID).

(** Returns [(ext, asr, originalFormatID, err)]. *)
Definition ParseAudioFormatID (formatID : string) : string * Z * string * option string :=
  match FromHex formatID with
  | (formatID, Some _) => ("", 0%Z, "", Some ("invalid audio format ID: " +:+ formatID))
  | (formatID, None) =>
      match SplitUU formatID with
      | [p0; p1; p2; p3] =>
          if String.eqb p0 "a" then
            match ParseInt p2 with
            | Some asr => (p1, asr, p3, None)
            | None => ("", 0%Z, "", Some ("invalid asr value in format ID: " +:+ formatID))
            end
          else ("", 0%Z, "", Some ("invalid audio format ID: " +:+ formatID))
      | _ => ("", 0%Z, "", Some ("invalid audio format ID: " +:+ formatID))
      end
  end.

(** Returns [(ext, resolution, vaFormatID, err)]. *)
Definition ParseVideoFormatID (formatID : string) : string * string * string * option string :=
  match FromHex formatID with
  | (formatID, Some _) => ("", "", "", Some ("invalid video format ID: " +:+ formatID))
  | (formatID, None) =>
      match SplitUU formatID with
      | [p0; p1; p2; p3] =>
          if String.eqb p0 "v" then (p1, p2, p3, None)
          else ("", "", "", Some ("invalid video format ID: " +:+ formatID))
      | _ => ("", "", "", Some ("invalid video format ID: " +:+ formatID))
      end
  end.

Definition IsVideoFormatID (formatID : string) : bool :=
  match FromHex formatID with
  | (_, Some _) => false
  | (formatID, None) => HasPrefix formatID "v__"
  end.

(** A field of a format id that the ["__"] separator can delimit. *)
Fixpoint no_us (s : string) : bool :=
  match s with
  | EmptyString => true
  | String c r => negb (Ascii.eqb c "_") && no_us r
  end.

(** One character of [s] replaced (out of range: no change). *)
Fixpoint set_char (s : string) (i : nat) (c : ascii) : string :=
  match s, i with
  | EmptyString, _ => EmptyString
  | String _ r, O => String c r
  | String d r, S i' => String d (set_char r i' c)
  end.

(* ------------------------------------------------------------------ *)
(** ** Time *)

(** [time.Time] in nanoseconds since the Unix epoch; [time.Time{}] is
    January 1st of year 1, 00:00 UTC. *)
Definition zero_time : Z := (- 62135596800 * 10 ^ 9)%Z.

Definition IsZero (t : Z) : bool := Z.eqb t zero_time.

Definition max_duration : Z := (2 ^ 63 - 1)%Z.
Definition min_duration : Z := (- 2 ^ 63)%Z.

(** [t.Sub(u)] saturates at the bounds of [time.Duration]. *)
Definition time_Sub (t u : Z) : Z :=
  let d := (t - u)%Z in
  if (max_duration <? d)%Z then max_duration
  else if (d <? min_duration)%Z then min_duration
  else d.

Definition Minute : Z := (60 * 10 ^ 9)%Z.

(* ------------------------------------------------------------------ *)
(** ** Configuration, URLs, tasks *)

Record Config := mkConfig {
  S3Mount : string;
  S3Prefix : string;
  DownloadDir : string;
  YtdlpPath : string;
  CookiesPath : string;
  Proxy : string;
  AudioFormats : list string;
  VideoFormats : list string
}.

(** [net/url.URL] (the fields this code can observe). *)
Record URL := mkURL {
  Scheme : string;
  Opaque : string;
  User : string;
  Host : string;
  Path : string;
  RawQuery : string;
  Fragment : string
}.

Definition set_Scheme (u : URL) (s : string) : URL :=
  mkURL s u.(Opaque) u.(User) u.(Host) u.(Path) u.(RawQuery) u.(Fragment).
Definition set_Host (u : URL) (h : string) : URL :=
  mkURL u.(Scheme) u.(Opaque) u.(User) h u.(Path) u.(RawQuery) u.(Fragment).

(** [url.Values.Get]: the first value of the key, or [""]. *)
Definition Values_Get (v : gmap string (list string)) (key : string) : string :=
  match v !! key with
  | Some (x :: _) => x
  | _ => ""
  end.

(** [DownloadTask]; [Cmd] is not modelled, [Ctx]/[Cancel] are the flags
    [HasCancel] ([task.Cancel != nil]) and [CtxCancelled]
    ([task.Ctx.Err() == context.Canceled], set by calling [task.Cancel]). *)
Record DownloadTask := mkTask {
  ID : string;
  TURL : string;
  Format : string;
  State : string;
  Progress : Q;
  Speed : string;
  ETA : string;
  DownloadUrl : string;
  Error : string;
  StartTime : Z;
  EndTime : Z;
  HasCancel : bool;
  CtxCancelled : bool
}.

Definition with_state (t : DownloadTask) (st err : string) : DownloadTask :=
  mkTask t.(ID) t.(TURL) t.(Format) st t.(Progress) t.(Speed) t.(ETA)
    t.(DownloadUrl) err t.(StartTime) t.(EndTime) t.(HasCancel) t.(CtxCancelled).
Definition with_state_only (t : DownloadTask) (st : string) : DownloadTask :=
  with_state t st t.(Error).
Definition with_end (t : DownloadTask) (e : Z) : DownloadTask :=
  mkTask t.(ID) t.(TURL) t.(Format) t.(State) t.(Progress) t.(Speed) t.(ETA)
    t.(DownloadUrl) t.(Error) t.(StartTime) e t.(HasCancel) t.(CtxCancelled).
Definition with_cancelled (t : DownloadTask) : DownloadTask :=
  mkTask t.(ID) t.(TURL) t.(Format) t.(State) t.(Progress) t.(Speed) t.(ETA)
    t.(DownloadUrl) t.(Error) t.(StartTime) t.(EndTime) t.(HasCancel) true.
(** [State = "completed"; Progress = 100; Speed = "0 B/s"; ETA = "00:00";
    DownloadUrl = url] *)
Definition with_completed (t : DownloadTask) (url : string) : DownloadTask :=
  mkTask t.(ID) t.(TURL) t.(Format) "completed" 100 "0 B/s" "00:00"
    url t.(Error) t.(StartTime) t.(EndTime) t.(HasCancel) t.(CtxCancelled).

(** The [Service]: the task map, and the ids of the tasks handed to a
    [go s.runDownload(task)]. *)
Record Service := mkService {
  downloads : gmap string DownloadTask;
  spawned : list string
}.

(** Outcomes of the external effects of one [runDownload]. *)
Record RunEnv := mkRunEnv {
  location_exists : bool;          (* os.Stat(location) succeeds *)
  stdout_pipe_err : option string; (* cmd.StdoutPipe() *)
  stderr_pipe_err : option string; (* cmd.StderrPipe() *)
  start_err : option string;       (* cmd.Start() *)
  wait_err : option string;        (* cmd.Wait() *)
  move_err : option string         (* s.moveFile(outputTemplate, destination) *)
}.

(** A JSON value as [json.Unmarshal] decodes it into [interface{}]; a
    number is a [float64], written here as the rational it denotes. *)
Set Warnings "-register-all".
Inductive JValue :=
  | JNull
  | JBool (b : bool)
  | JNumber (q : Q)
  | JString (s : string)
  | JArray (l : list JValue)
  | JObject (m : list (string * JValue)).

(** The Go library functions the code calls, left abstract. *)
Record GoLib := mkGoLib {
  url_Parse : string -> option URL;                (* url.Parse; None: error *)
  ParseQuery : string -> gmap string (list string); (* URL.Query() on RawQuery *)
  URL_String : URL -> string;                      (* URL.String() *)
  Join : string -> string -> string;               (* filepath.Join *)
  (* json.Unmarshal into map[string]interface{}: inl with the error text
     on a syntax error or a non-object document, inr with the members
     otherwise (the document null gives the empty map) *)
  json_Unmarshal : string -> string + list (string * JValue);
  (* strconv.ParseFloat(s, 64) on a string spelling a finite number; the
     spellings of NaN and of the infinities are outside this model *)
  ParseFloat : string -> option Q
}.

Section Service.

Variable lib : GoLib.

(** [CheckUrl(urlStr) (string, string, error)] *)
Definition CheckUrl (urlStr : string) : string * string * option string :=
  match lib.(url_Parse) urlStr with
  | None => ("", "", Some "parse error")
  | Some parsedURL =>
      let schemeChecked :=
        if String.eqb parsedURL.(Scheme) "" || String.eqb parsedURL.(Scheme) "http"
        then Some (set_Scheme parsedURL "https")
        else if negb (String.eqb parsedURL.(Scheme) "https") then None
        else Some parsedURL in
      match schemeChecked with
      | None => ("", "", Some ("invalid URL scheme: " +:+ parsedURL.(Scheme)))
      | Some parsedURL =>
          let hostChecked :=
            if String.eqb parsedURL.(Host) "youtube.com" || String.eqb parsedURL.(Host) "m.youtube.com"
            then Some (set_Host parsedURL "www.youtube.com")
            else if String.eqb parsedURL.(Host) "www.youtube.com" then Some parsedURL
            else None in
          match hostChecked with
          | None => ("", "", Some ("invalid URL host: " +:+ parsedURL.(Host)))
          | Some parsedURL =>
              if negb (String.eqb parsedURL.(Path) "/watch")
              then ("", "", Some ("invalid URL path: " +:+ parsedURL.(Path)))
              else
                let videoID := Values_Get (lib.(ParseQuery) parsedURL.(RawQuery)) "v" in
                if String.eqb videoID "" then ("", "", Some "missing video ID in URL")
                else (lib.(URL_String) parsedURL, videoID, None)
          end
      end
  end.

(** [getTaskId(url, formatID) (string, error)]: the errors of the format
    id parsers are dropped ([ext, resolution, _, _ := ...]). *)
Definition getTaskId (url formatID : string) : string * option string :=
  match CheckUrl url with
  | (_, _, Some err) => ("", Some err)
  | (_, videoID, None) =>
      let task_id :=
        if IsVideoFormatID formatID then
          let '(ext, resolution, _, _) := ParseVideoFormatID formatID in
          videoID +:+ "/video/" +:+ resolution +:+ "/" +:+ videoID +:+ "." +:+ ext
        else
          let '(ext, asr, _, _) := ParseAudioFormatID formatID in
          videoID +:+ "/audio/" +:+ fmt_int asr +:+ "/" +:+ videoID +:+ "." +:+ ext in
      (ToHex task_id, None)
  end.

Definition new_task (taskID url formatID : string) (now : Z) : DownloadTask :=
  {| ID := taskID; TURL := url; Format := formatID; State := "pending";
     Progress := 0; Speed := "0 B/s"; ETA := "unknown"; DownloadUrl := "";
     Error := ""; StartTime := now; EndTime := zero_time;
     HasCancel := true; CtxCancelled := false |}.

(** The [(kind, discriminator, extension)] that [getTaskId] reads from a
    format id (zero values when the id does not parse). *)
Definition token_fields (formatID : string) : string * string * string :=
  if IsVideoFormatID formatID then
    let '(ext, resolution, _, _) := ParseVideoFormatID formatID in ("video", resolution, ext)
  else
    let '(ext, asr, _, _) := ParseAudioFormatID formatID in ("audio", fmt_int asr, ext).

(** [StartDownload(url, formatID) (string, error)]; the read-locked probe
    and the write-locked re-probe are both kept; each runs atomically. *)
Definition StartDownload (s : Service) (url formatID : string) (now : Z)
  : Service * (string * option string) :=
  match getTaskId url formatID with
  | (_, Some err) => (s, ("", Some err))
  | (taskID, None) =>
      match s.(downloads) !! taskID with
      | Some _ => (s, (taskID, None))
      | None =>
          match s.(downloads) !! taskID with
          | Some _ => (s, (taskID, None))
          | None =>
              let task := new_task taskID url formatID now in
              (mkService (<[taskID := task]> s.(downloads)) (s.(spawned) ++ [taskID]),
               (taskID, None))
          end
      end
  end.

(** [GetDownloadStatus(taskID)] *)
Definition GetDownloadStatus (s : Service) (taskID : string) : option DownloadTask * option string :=
  match s.(downloads) !! taskID with
  | None => (None, Some "download task not found")
  | Some task => (Some task, None)
  end.

(** [CancelDownload(taskID) error] *)
Definition CancelDownload (s : Service) (taskID : string) (now : Z) : Service * option string :=
  match s.(downloads) !! taskID with
  | None => (s, Some "download task not found")
  | Some task =>
      if String.eqb task.(State) "downloading" && task.(HasCancel) then
        let task := with_end (with_state (with_cancelled task) "failed" "Download cancelled by user") now in
        (mkService (<[taskID := task]> s.(downloads)) s.(spawned), None)
      else (s, None)
  end.

(** The artifact path [videoID/kind/disc/videoID.ext] of [runDownload]. *)
Definition s3Location_of (task : DownloadTask) : string :=
  let '(_, videoID, _) := CheckUrl task.(TURL) in
  if IsVideoFormatID task.(Format) then
    let '(ext, resolution, _, _) := ParseVideoFormatID task.(Format) in
    videoID +:+ "/video/" +:+ resolution +:+ "/" +:+ videoID +:+ "." +:+ ext
  else
    let '(ext, asr, _, _) := ParseAudioFormatID task.(Format) in
    videoID +:+ "/audio/" +:+ fmt_int asr +:+ "/" +:+ videoID +:+ "." +:+ ext.

Definition getDownloadUrl (cfg : Config) (s3Location : string) : string :=
  cfg.(S3Prefix) +:+ s3Location.

(** [runDownload], up to [cmd.Wait()]: the task after this part, and
    whether the command was started (and is waited for). *)
Definition runDownload_start (cfg : Config) (env : RunEnv) (now : Z) (task : DownloadTask)
  : DownloadTask * bool :=
  match FromHex task.(ID) with
  | (_, Some err) => (with_end (with_state task "failed" err) now, false)
  | (decodedTaskID, None) =>
      if env.(location_exists) then
        (with_end (with_completed (with_state_only task "completed")
                     (getDownloadUrl cfg decodedTaskID)) now, false)
      else
        let task := with_state_only task "downloading" in
        match env.(stdout_pipe_err), env.(stderr_pipe_err), env.(start_err) with
        | Some err, _, _ | None, Some err, _ | None, None, Some err =>
            (with_state task "failed" ("Failed to start download: " +:+ err), false)
        | None, None, None => (task, true)
        end
  end.

(** [runDownload], from the return of [cmd.Wait()]; it reads the task as
    it is then, after any concurrent [CancelDownload]. *)
Definition runDownload_finish (cfg : Config) (env : RunEnv) (now : Z) (task : DownloadTask)
  : DownloadTask :=
  match env.(wait_err) with
  | Some err =>
      let task :=
        if task.(CtxCancelled) then with_state task "failed" "Download cancelled by user"
        else with_state task "failed" ("Download failed: " +:+ err) in
      with_end task now
  | None =>
      if negb (String.eqb task.(State) "failed") then
        let s3Location := s3Location_of task in
        match env.(move_err) with
        | Some err => with_state task "failed" ("Failed to move file to S3 location: " +:+ err)
        | None => with_end (with_completed task (getDownloadUrl cfg s3Location)) now
        end
      else with_end task now
  end.

(** [runDownload] with no concurrent cancellation. *)
Definition runDownload (cfg : Config) (env : RunEnv) (now1 now2 : Z) (task : DownloadTask)
  : DownloadTask :=
  let '(task, started) := runDownload_start cfg env now1 task in
  if started then runDownload_finish cfg env now2 task else task.

End Service.

(** [cleanupCompletedTasks]: the tasks it collects and deletes. *)
Definition cleanup_due (now : Z) (task : DownloadTask) : bool :=
  (String.eqb task.(State) "completed" || String.eqb task.(State) "failed") &&
  negb (IsZero task.(EndTime)) &&
  (10 * Minute <? time_Sub now task.(EndTime))%Z.

(** Collecting the ids, then deleting them, keeps exactly the others. *)
Definition cleanupCompletedTasks (now : Z) (s : Service) : Service :=
  mkService (filter (fun kv => cleanup_due now kv.2 = false) s.(downloads)) s.(spawned).

(** Every registered task has a cancel function ([task.Cancel != nil]). *)
Definition all_cancellable (s : Service) : Prop :=
  forall (taskID : string) (t : DownloadTask), s.(downloads) !! taskID = Some t -> t.(HasCancel) = true.


(* ------------------------------------------------------------------ *)
(** ** Video metadata ([GetVideoInfo], [extractOptimalFormats]) *)

(** A decoded JSON object, [map[string]interface{}]; on a repeated key the
    last member is the one the map holds. *)
Definition fmap := list (string * JValue).

Fixpoint jget (m : fmap) (key : string) : option JValue :=
  match m with
  | [] => None
  | (k, v) :: r =>
      match jget r key with
      | Some w => Some w
      | None => if String.eqb k key then Some v else None
      end
  end.

(** [int64(f)] / [int(f)] for a [float64] [f]: truncation toward zero; out
    of range, amd64 gives the indefinite integer [-2^63]. *)
Definition float_to_int64 (q : Q) : Z :=
  let z := Z.quot (Qnum q) (Zpos (Qden q)) in
  if (- 2 ^ 63 <=? z)%Z && (z <? 2 ^ 63)%Z then z else (- 2 ^ 63)%Z.

Definition getStringValue (data : fmap) (key : string) : string :=
  match jget data key with
  | Some (JString v) => v
  | _ => ""
  end.

(** JSON numbers decode as [float64], so the [int] and [int64] cases of
    the type switch never occur. *)
Definition getIntValue (data : fmap) (key : string) : Z :=
  match jget data key with
  | Some (JNumber v) => float_to_int64 v
  | Some (JString v) => match ParseInt v with Some i => i | None => 0%Z end
  | _ => 0%Z
  end.

Definition getInt64Value (data : fmap) (key : string) : Z :=
  match jget data key with
  | Some (JNumber v) => float_to_int64 v
  | Some (JString v) => match ParseInt v with Some i => i | None => 0%Z end
  | _ => 0%Z
  end.

(** The longest prefix of decimal digits, and the rest. *)
Fixpoint digit_run (s : string) : string * string :=
  match s with
  | String c r =>
      if is_digit c then let '(d, rest) := digit_run r in (String c d, rest)
      else ("", s)
  | EmptyString => ("", "")
  end.

(** The leftmost-first match of [(\d+x\d+|\d+p)] starting at the head of
    [s]: the first alternative, else the second. *)
Definition res_match_at (s : string) : option string :=
  let '(d1, r1) := digit_run s in
  if String.eqb d1 "" then None else
  match r1 with
  | String c r2 =>
      if Ascii.eqb c "x" then
        let '(d2, _) := digit_run r2 in
        if String.eqb d2 "" then None else Some (d1 +:+ "x" +:+ d2)
      else if Ascii.eqb c "p" then Some (d1 +:+ "p")
      else None
  | EmptyString => None
  end.

(** [resRegex.FindStringSubmatch(format)], whole match. *)
Fixpoint res_find (s : string) : option string :=
  match res_match_at s with
  | Some m => Some m
  | None => match s with String _ r => res_find r | EmptyString => None end
  end.

(** [getResolution]: the [resolution] string when it is non-empty, else
    [width]x[height] when both are positive, else the first match in
    [format], else "unknown". *)
Definition getResolution (data : fmap) : string :=
  let from_size :=
    let width := getIntValue data "width" in
    let height := getIntValue data "height" in
    if (0 <? width)%Z && (0 <? height)%Z then fmt_int width +:+ "x" +:+ fmt_int height
    else match jget data "format" with
         | Some (JString format) => match res_find format with Some m => m | None => "unknown" end
         | _ => "unknown"
         end in
  match jget data "resolution" with
  | Some (JString res) => if negb (String.eqb res "") then res else from_size
  | _ => from_size
  end.

Definition getStringArrayValue (data : fmap) (key : string) : list string :=
  match jget data key with
  | Some (JArray l) => omap (fun v => match v with JString s => Some s | _ => None end) l
  | _ => []
  end.

(** [isAudioFormatMapBetter(a, b)]: [true] also when every compared field
    is equal. *)
Definition isAudioFormatMapBetter (a b : fmap) : bool :=
  let aAbr := getInt64Value a "abr" in
  let bAbr := getInt64Value b "abr" in
  if negb (aAbr =? bAbr)%Z then (bAbr <? aAbr)%Z else
  let aFilesize := getInt64Value a "filesize" in
  let bFilesize := getInt64Value b "filesize" in
  if negb (aFilesize =? bFilesize)%Z then (bFilesize <? aFilesize)%Z else
  true.

Record AudioFormat := mkAudioFormat {
  AF_FormatID : string;
  AF_Ext : string;
  Asr : Z
}.

Record VideoFormat := mkVideoFormat {
  VF_FormatID : string;
  VF_Ext : string;
  Resolution : string
}.

Record AudioFormatGroup := mkAudioFormatGroup {
  AG_Ext : string;
  AG_Formats : list AudioFormat
}.

Record VideoFormatGroup := mkVideoFormatGroup {
  VG_Ext : string;
  VG_Formats : list VideoFormat
}.

Record VideoInfo := mkVideoInfo {
  VI_ID : string;
  WebpageURL : string;
  Title : string;
  Description : string;
  Duration : Z;
  Thumbnail : string;
  ViewCount : Z;
  CommentCount : Z;
  LikeCount : Z;
  UploadDate : string;
  Uploader : string;
  Categories : list string;
  Tags : list string;
  ChannelName : string;
  ChannelURL : string;
  ChannelFollowerCount : Z;
  VI_Audio : list AudioFormatGroup;
  VI_Video : list VideoFormatGroup
}.

(** Outcomes of the external effects of one [doExecuteYtdlpCommand]; the
    cache files themselves are the file store threaded through. *)
Record MetaEnv := mkMetaEnv {
  cache_read_err : bool;            (* os.ReadFile on an existing cache file *)
  ytdlp_output : string + string;   (* cmd.Output(): inl err, inr stdout *)
  cache_write_err : bool            (* os.WriteFile(videoJsonPath, ...) *)
}.

Section Metadata.
Variable lib : GoLib.

Definition getFloat64Value (data : fmap) (key : string) : Q :=
  match jget data key with
  | Some (JNumber v) => v
  | Some (JString v) => match lib.(ParseFloat) v with Some f => f | None => 0%Q end
  | _ => 0%Q
  end.

(** [isVideoFormatMapBetter(a, b)]: [true] also when every compared field
    is equal. *)
Definition isVideoFormatMapBetter (a b : fmap) : bool :=
  let aVbr := getInt64Value a "vbr" in
  let bVbr := getInt64Value b "vbr" in
  if negb (aVbr =? bVbr)%Z then (bVbr <? aVbr)%Z else
  let aFps := getFloat64Value a "fps" in
  let bFps := getFloat64Value b "fps" in
  if negb (Qeq_bool aFps bFps) then negb (Qle_bool aFps bFps) else
  let aFilesize := getInt64Value a "filesize" in
  let bFilesize := getInt64Value b "filesize" in
  if negb (aFilesize =? bFilesize)%Z then (bFilesize <? aFilesize)%Z else
  true.

(** One iteration of the loop over [rawInfo["formats"]] of
    [extractOptimalFormats], on [audioByAsr] and [videoByResolution]. *)
Definition extract_step (acc : gmap string fmap * gmap string fmap) (formatRaw : JValue)
  : gmap string fmap * gmap string fmap :=
  let '(audioByAsr, videoByResolution) := acc in
  match formatRaw with
  | JObject formatMap =>
      let vcodec := getStringValue formatMap "vcodec" in
      let acodec := getStringValue formatMap "acodec" in
      if Contains (getStringValue formatMap "format_note") "storyboard" then acc else
      (* None: the [continue] on [asr == 0] *)
      let audio :=
        if String.eqb vcodec "none" && negb (String.eqb acodec "none") && negb (String.eqb acodec "")
        then
          let asr := getInt64Value formatMap "asr" in
          if (asr =? 0)%Z then None else
          let asrKey := fmt_int asr in
          Some match audioByAsr !! asrKey with
               | Some existingMap =>
                   if isAudioFormatMapBetter formatMap existingMap
                   then <[asrKey := formatMap]> audioByAsr else audioByAsr
               | None => <[asrKey := formatMap]> audioByAsr
               end
        else Some audioByAsr in
      match audio with
      | None => acc
      | Some audioByAsr =>
          if String.eqb acodec "none" && negb (String.eqb vcodec "none") && negb (String.eqb vcodec "")
          then
            let resolution := getResolution formatMap in
            let resolution := if String.eqb resolution "" then "unknown" else resolution in
            (audioByAsr,
             match videoByResolution !! resolution with
             | Some existingMap =>
                 if isVideoFormatMapBetter formatMap existingMap
                 then <[resolution := formatMap]> videoByResolution else videoByResolution
             | None => <[resolution := formatMap]> videoByResolution
             end)
          else (audioByAsr, videoByResolution)
      end
  | _ => acc
  end.

Definition formats_of (rawInfo : fmap) : list JValue :=
  match jget rawInfo "formats" with
  | Some (JArray l) => l
  | _ => []
  end.

Definition extract_buckets (rawInfo : fmap) : gmap string fmap * gmap string fmap :=
  fold_left extract_step (formats_of rawInfo) (∅, ∅).

(** [extractOptimalFormats]. Go ranges over a map in an unspecified
    order; the lists here take the order of [map_to_list]. *)
Definition extractOptimalFormats (rawInfo : fmap) : list AudioFormat * list VideoFormat :=
  let '(audioByAsr, videoByResolution) := extract_buckets rawInfo in
  (map (fun kv : string * fmap =>
          mkAudioFormat (getStringValue kv.2 "format_id") (getStringValue kv.2 "ext")
                        (getInt64Value kv.2 "asr")) (map_to_list audioByAsr),
   map (fun kv : string * fmap =>
          mkVideoFormat (getStringValue kv.2 "format_id") (getStringValue kv.2 "ext")
                        (getResolution kv.2)) (map_to_list videoByResolution)).

(** The maximum [Asr] over the optimal audio formats and its format id,
    computed inside the loop over [AudioFormats], so left at [(0, "")]
    when no audio extension is configured. *)
Definition max_audio (audioExts : list string) (optimalAudioFormats : list AudioFormat) : Z * string :=
  fold_left (fun acc _ =>
    fold_left (fun '(maxAsr, maxAFormatId) af =>
      if (maxAsr <? af.(Asr))%Z then (af.(Asr), af.(AF_FormatID)) else (maxAsr, maxAFormatId))
      optimalAudioFormats acc) audioExts (0%Z, "").

Definition audio_groups (audioExts : list string) (optimalAudioFormats : list AudioFormat)
  : list AudioFormatGroup :=
  flat_map (fun afe =>
    let formats := map (fun af => mkAudioFormat (buildAudioFormatID afe af.(Asr) af.(AF_FormatID))
                                                afe af.(Asr)) optimalAudioFormats in
    if (0 <? length formats)%nat then [mkAudioFormatGroup afe formats] else []) audioExts.

Definition video_groups (videoExts : list string) (optimalVideoFormats : list VideoFormat)
                        (maxAFormatId : string) : list VideoFormatGroup :=
  flat_map (fun vfe =>
    let formats := map (fun vf => mkVideoFormat
                          (buildVideoFormatID vfe vf.(Resolution) vf.(VF_FormatID) maxAFormatId)
                          vfe vf.(Resolution)) optimalVideoFormats in
    if (0 <? length formats)%nat then [mkVideoFormatGroup vfe formats] else []) videoExts.

(** The [VideoInfo] [GetVideoInfo] builds from a decoded document. *)
Definition build_info (cfg : Config) (rawInfo : fmap) : VideoInfo :=
  let channelFollowerCount := getInt64Value rawInfo "channel_follower_count" in
  let channelFollowerCount :=
    if (channelFollowerCount =? 0)%Z then getInt64Value rawInfo "subscriber_count"
    else channelFollowerCount in
  let '(optimalAudioFormats, optimalVideoFormats) := extractOptimalFormats rawInfo in
  let '(_, maxAFormatId) := max_audio cfg.(AudioFormats) optimalAudioFormats in
  mkVideoInfo (getStringValue rawInfo "id") (getStringValue rawInfo "webpage_url")
    (getStringValue rawInfo "title") (getStringValue rawInfo "description")
    (getIntValue rawInfo "duration") (getStringValue rawInfo "thumbnail")
    (getInt64Value rawInfo "view_count") (getInt64Value rawInfo "comment_count")
    (getInt64Value rawInfo "like_count") (getStringValue rawInfo "upload_date")
    (getStringValue rawInfo "uploader")
    (getStringArrayValue rawInfo "categories") (getStringArrayValue rawInfo "tags")
    (getStringValue rawInfo "channel") (getStringValue rawInfo "channel_url")
    channelFollowerCount
    (audio_groups cfg.(AudioFormats) optimalAudioFormats)
    (video_groups cfg.(VideoFormats) optimalVideoFormats maxAFormatId).

Definition getVideoJsonPath (cfg : Config) (videoID : string) : string :=
  lib.(Join) cfg.(S3Mount) (videoID +:+ "/" +:+ videoID +:+ ".json").

(** [doExecuteYtdlpCommand] on the file store [fs] (path to content). *)
Definition doExecuteYtdlpCommand (cfg : Config) (env : MetaEnv) (fs : gmap string string)
                                 (url videoID : string)
  : gmap string string * (string * option string) :=
  let videoJsonPath := getVideoJsonPath cfg videoID in
  match fs !! videoJsonPath with
  | Some content => if negb env.(cache_read_err) then (fs, (content, None)) else
      match env.(ytdlp_output) with
      | inl err => (fs, ("", Some ("failed to get video info: " +:+ err)))
      | inr output =>
          ((if env.(cache_write_err) then fs else <[videoJsonPath := output]> fs), (output, None))
      end
  | None =>
      match env.(ytdlp_output) with
      | inl err => (fs, ("", Some ("failed to get video info: " +:+ err)))
      | inr output =>
          ((if env.(cache_write_err) then fs else <[videoJsonPath := output]> fs), (output, None))
      end
  end.

(** [executeYtdlpCommand], one caller at a time (the [singleflight] group
    only merges concurrent calls). *)
Definition executeYtdlpCommand (cfg : Config) (env : MetaEnv) (fs : gmap string string) (url : string)
  : gmap string string * (string * option string) :=
  match CheckUrl lib url with
  | (_, _, Some err) => (fs, ("", Some err))
  | (_, videoID, None) => doExecuteYtdlpCommand cfg env fs url videoID
  end.

Definition GetVideoInfo (cfg : Config) (env : MetaEnv) (fs : gmap string string) (url : string)
  : gmap string string * (option VideoInfo * option string) :=
  match executeYtdlpCommand cfg env fs url with
  | (fs, (_, Some err)) => (fs, (None, Some err))
  | (fs, (outputStr, None)) =>
      match lib.(json_Unmarshal) outputStr with
      | inl err => (fs, (None, Some ("failed to parse video info: " +:+ err)))
      | inr rawInfo => (fs, (Some (build_info cfg rawInfo), None))
      end
  end.

End Metadata.

(* ------------------------------------------------------------------ *)
(** ** Buckets of [extractOptimalFormats], for stating its selection *)

(** The entries of [rawInfo["formats"]] that are JSON objects, in order. *)
Definition format_objects (l : list JValue) : list fmap :=
  omap (fun v => match v with JObject m => Some m | _ => None end) l.

(** The key of [audioByAsr] a format is filed under, if any. *)
Definition audio_key (formatMap : fmap) : option string :=
  let vcodec := getStringValue formatMap "vcodec" in
  let acodec := getStringValue formatMap "acodec" in
  if Contains (getStringValue formatMap "format_note") "storyboard" then None
  else if String.eqb vcodec "none" && negb (String.eqb acodec "none") && negb (String.eqb acodec "")
  then (let asr := getInt64Value formatMap "asr" in
        if (asr =? 0)%Z then None else Some (fmt_int asr))
  else None.

(** The key of [videoByResolution] a format is filed under, if any. *)
Definition video_key (formatMap : fmap) : option string :=
  let vcodec := getStringValue formatMap "vcodec" in
  let acodec := getStringValue formatMap "acodec" in
  if Contains (getStringValue formatMap "format_note") "storyboard" then None
  else if String.eqb acodec "none" && negb (String.eqb vcodec "none") && negb (String.eqb vcodec "")
  then (let resolution := getResolution formatMap in
        Some (if String.eqb resolution "" then "unknown" else resolution))
  else None.

Definition audio_bucket (rawInfo : fmap) (k : string) : list fmap :=
  filter (fun fm => audio_key fm = Some k) (format_objects (formats_of rawInfo)).

Definition video_bucket (rawInfo : fmap) (k : string) : list fmap :=
  filter (fun fm => video_key fm = Some k) (format_objects (formats_of rawInfo)).

(** The quality order on audio formats, on the fields as the code reads
    them: bitrate [abr], then [filesize]. *)
Definition audio_rank_le (x y : fmap) : Prop :=
  (getInt64Value x "abr" < getInt64Value y "abr")%Z \/
  (getInt64Value x "abr" = getInt64Value y "abr" /\
   (getInt64Value x "filesize" <= getInt64Value y "filesize")%Z).

Definition audio_rank_lt (x y : fmap) : Prop :=
  (getInt64Value x "abr" < getInt64Value y "abr")%Z \/
  (getInt64Value x "abr" = getInt64Value y "abr" /\
   (getInt64Value x "filesize" < getInt64Value y "filesize")%Z).

(** The quality order on video formats: bitrate [vbr], then [fps], then
    [filesize]. *)
Definition video_rank_le (lib : GoLib) (x y : fmap) : Prop :=
  (getInt64Value x "vbr" < getInt64Value y "vbr")%Z \/
  (getInt64Value x "vbr" = getInt64Value y "vbr" /\
   ((getFloat64Value lib x "fps" < getFloat64Value lib y "fps")%Q \/
    ((getFloat64Value lib x "fps" == getFloat64Value lib y "fps")%Q /\
     (getInt64Value x "filesize" <= getInt64Value y "filesize")%Z))).

Definition video_rank_lt (lib : GoLib) (x y : fmap) : Prop :=
  (getInt64Value x "vbr" < getInt64Value y "vbr")%Z \/
  (getInt64Value x "vbr" = getInt64Value y "vbr" /\
   ((getFloat64Value lib x "fps" < getFloat64Value lib y "fps")%Q \/
    ((getFloat64Value lib x "fps" == getFloat64Value lib y "fps")%Q /\
     (getInt64Value x "filesize" < getInt64Value y "filesize")%Z))).

(** One bucket's share of one loop iteration. *)
Definition bucket_step (better : fmap -> fmap -> bool) (key : fmap -> option string) (k : string)
                       (cur : option fmap) (fm : fmap) : option fmap :=
  if decide (key fm = Some k) then
    match cur with
    | Some existing => if better fm existing then Some fm else Some existing
    | None => Some fm
    end
  else cur.

(** The survivor of a bucket seen in order, from a current holder. *)
Fixpoint sel {A} (better : A -> A -> bool) (cur : A) (l : list A) : A :=
  match l with
  | [] => cur
  | x :: r => sel better (if better x cur then x else cur) r
  end.

Definition opt_sel {A} (better : A -> A -> bool) (cur : option A) (l : list A) : option A :=
  match cur, l with
  | Some c, _ => Some (sel better c l)
  | None, x :: r => Some (sel better x r)
  | None, [] => None
  end.

(* ------------------------------------------------------------------ *)
(** ** A concrete configuration, for running the definitions *)

(** One watch URL that [url.Parse] accepts. *)
Definition sample_url : string := "https://www.youtube.com/watch?v=abc".

Definition sample_u : URL := mkURL "https" "" "" "www.youtube.com" "/watch" "v=abc" "".

(** Library functions that agree with Go's on the inputs used below:
    [json.Unmarshal] accepts the empty object and rejects every other
    text, [strconv.ParseFloat] is never reached. *)
Definition sample_lib : GoLib := {|
  url_Parse := fun s => if String.eqb s sample_url then Some sample_u else None;
  ParseQuery := fun q => if String.eqb q "v=abc" then {[ "v" := ["abc"] ]} else ∅;
  URL_String := fun u => u.(Scheme) +:+ "://" +:+ u.(Host) +:+ u.(Path) +:+ "?" +:+ u.(RawQuery);
  Join := fun a b => a +:+ "/" +:+ b;
  json_Unmarshal := fun s => if String.eqb s "{}" then inr [] else inl "invalid character 'o' looking for beginning of value";
  ParseFloat := fun _ => None
|}.

Definition sample_cfg : Config :=
  mkConfig "/mnt/s3" "https://cdn.example.com/" "/tmp/downloads" "yt-dlp" "" "" ["m4a"] ["mp4"].

Definition sample_token : string := buildAudioFormatID "m4a" 44100 "140".

(** The registry after one [StartDownload] on an empty one. *)
Definition sample_start : Service * (string * option string) :=
  StartDownload sample_lib (mkService ∅ []) sample_url sample_token 0.

Definition sample_task : DownloadTask :=
  match sample_start.1.(downloads) !! sample_start.2.1 with
  | Some t => t
  | None => new_task "" "" "" 0
  end.

(** [cmd.Start()] fails: the yt-dlp binary is missing. *)
Definition env_start_fail : RunEnv :=
  mkRunEnv false None None (Some "exec: yt-dlp: executable file not found in $PATH") None None.

(** About 2023-11-14, in nanoseconds since the epoch. *)
Definition sample_now : Z := 1700000000000000000%Z.

(** Two audio formats of one sample rate, [fid], with the given bitrate
    and file size. *)
Definition audio_format_json (fid : string) (abr : Q) (filesize : Q) : JValue :=
  JObject [("format_id", JString fid); ("ext", JString "m4a");
           ("vcodec", JString "none"); ("acodec", JString "mp4a.40.2");
           ("asr", JNumber 44100); ("abr", JNumber abr); ("filesize", JNumber filesize)].

(** "A" then "B", equal in every compared field. *)
Definition raw_tie : fmap :=
  [("formats", JArray [audio_format_json "A" 128 1000; audio_format_json "B" 128 1000])].

(** "A" at 128.9 kbit/s then "B" at 128.1 kbit/s, same file size. *)
Definition raw_fractional : fmap :=
  [("formats", JArray [audio_format_json "A" (1289 # 10) 1000; audio_format_json "B" (1281 # 10) 1000])].

(** yt-dlp exits with status 0 and prints [out]; the cache is writable. *)
Definition env_output (out : string) : MetaEnv := mkMetaEnv false (inr out) false.
(* ------------------------------------------------------------------ *)
(** ** [GetActiveTasksCount] *)

(** One iteration of the loop: the [switch task.State]. *)
Definition count_step (acc : nat * nat * nat * nat) (kv : string * DownloadTask)
  : nat * nat * nat * nat :=
  let '(pending, downloading, completed, failed) := acc in
  let st := kv.2.(State) in
  if String.eqb st "pending" then (S pending, downloading, completed, failed)
  else if String.eqb st "downloading" then (pending, S downloading, completed, failed)
  else if String.eqb st "completed" then (pending, downloading, S completed, failed)
  else if String.eqb st "failed" then (pending, downloading, completed, S failed)
  else acc.

(** [GetActiveTasksCount() (total, pending, downloading, completed, failed)];
    the map is ranged over in the order of [map_to_list]. *)
Definition GetActiveTasksCount (s : Service) : nat * nat * nat * nat * nat :=
  let total := size s.(downloads) in
  let '(pending, downloading, completed, failed) :=
    fold_left count_step (map_to_list s.(downloads)) (0, 0, 0, 0)%nat in
  (total, pending, downloading, completed, failed).

(** The number of registered tasks in state [st]. *)
Definition tasks_in (st : string) (s : Service) : nat :=
  length (filter (fun kv : string * DownloadTask => kv.2.(State) = st)
                 (map_to_list s.(downloads))).

(** Every registered task is in one of the four states the counts know. *)
Definition states_known (s : Service) : Prop :=
  forall (taskID : string) (t : DownloadTask), s.(downloads) !! taskID = Some t ->
    t.(State) = "pending" \/ t.(State) = "downloading" \/
    t.(State) = "completed" \/ t.(State) = "failed".

(* ------------------------------------------------------------------ *)
(** ** [parseProgressLine]

    The three patterns are ASCII and start with an ASCII character, so
    matching them on the bytes of the line finds what Go's matcher finds
    on its runes. Each pattern matches in at most one way at a given
    position (every repetition is followed by a character it cannot
    consume), so the leftmost-first match is the first position, from the
    left, at which the pattern matches. *)

(** [\s] of Go's regexp syntax: [[\t\n\f\r ]]. *)
Definition is_space (c : ascii) : bool :=
  let n := N_of_ascii c in
  (n =? 9)%N || (n =? 10)%N || (n =? 12)%N || (n =? 13)%N || (n =? 32)%N.

(** [[\d\.]] *)
Definition is_num_dot (c : ascii) : bool := is_digit c || Ascii.eqb c ".".

(** [[KMGTP]] *)
Definition is_unit_prefix (c : ascii) : bool :=
  Ascii.eqb c "K" || Ascii.eqb c "M" || Ascii.eqb c "G" || Ascii.eqb c "T" || Ascii.eqb c "P".

(** The longest prefix of characters satisfying [p], and the rest. *)
Fixpoint span (p : ascii -> bool) (s : string) : string * string :=
  match s with
  | String c r =>
      if p c then let '(d, rest) := span p r in (String c d, rest)
      else ("", s)
  | EmptyString => ("", "")
  end.

(** The first submatch of the leftmost match, given the matcher [m] at one
    position ([FindStringSubmatch], [matches[1]]). *)
Fixpoint regex_find (m : string -> option string) (s : string) : option string :=
  match m s with
  | Some x => Some x
  | None => match s with String _ r => regex_find m r | EmptyString => None end
  end.

(** [(\d+\.\d+)%] at the head of [s]. *)
Definition progress_at (s : string) : option string :=
  let '(d1, r1) := digit_run s in
  if String.eqb d1 "" then None else
  match r1 with
  | String c r2 =>
      if Ascii.eqb c "." then
        let '(d2, r3) := digit_run r2 in
        if String.eqb d2 "" then None else
        match r3 with
        | String c' _ => if Ascii.eqb c' "%" then Some (d1 +:+ "." +:+ d2) else None
        | EmptyString => None
        end
      else None
  | EmptyString => None
  end.

(** [at\s+([\d\.]+\s*[KMGTP]?i?B/s)] at the head of [s]. *)
Definition speed_at (s : string) : option string :=
  match s with
  | String a (String t r) =>
      if Ascii.eqb a "a" && Ascii.eqb t "t" then
        let '(w1, r1) := span is_space r in
        if String.eqb w1 "" then None else
        let '(n, r2) := span is_num_dot r1 in
        if String.eqb n "" then None else
        let '(w2, r3) := span is_space r2 in
        let '(u, r4) :=
          match r3 with
          | String c r' => if is_unit_prefix c then (String c "", r') else ("", r3)
          | EmptyString => ("", r3)
          end in
        let '(i, r5) :=
          match r4 with
          | String c r' => if Ascii.eqb c "i" then ("i", r') else ("", r4)
          | EmptyString => ("", r4)
          end in
        if HasPrefix r5 "B/s" then Some (n +:+ w2 +:+ u +:+ i +:+ "B/s") else None
      else None
  | _ => None
  end.

(** [ETA\s+(\d+:\d+)] at the head of [s]. *)
Definition eta_at (s : string) : option string :=
  match s with
  | String e (String t (String a r)) =>
      if Ascii.eqb e "E" && Ascii.eqb t "T" && Ascii.eqb a "A" then
        let '(w, r1) := span is_space r in
        if String.eqb w "" then None else
        let '(d1, r2) := digit_run r1 in
        if String.eqb d1 "" then None else
        match r2 with
        | String c r3 =>
            if Ascii.eqb c ":" then
              let '(d2, _) := digit_run r3 in
              if String.eqb d2 "" then None else Some (d1 +:+ ":" +:+ d2)
            else None
        | EmptyString => None
        end
      else None
  | _ => None
  end.

Definition with_progress (t : DownloadTask) (p : Q) : DownloadTask :=
  mkTask t.(ID) t.(TURL) t.(Format) t.(State) p t.(Speed) t.(ETA)
    t.(DownloadUrl) t.(Error) t.(StartTime) t.(EndTime) t.(HasCancel) t.(CtxCancelled).
Definition with_speed (t : DownloadTask) (sp : string) : DownloadTask :=
  mkTask t.(ID) t.(TURL) t.(Format) t.(State) t.(Progress) sp t.(ETA)
    t.(DownloadUrl) t.(Error) t.(StartTime) t.(EndTime) t.(HasCancel) t.(CtxCancelled).
Definition with_eta (t : DownloadTask) (eta : string) : DownloadTask :=
  mkTask t.(ID) t.(TURL) t.(Format) t.(State) t.(Progress) t.(Speed) eta
    t.(DownloadUrl) t.(Error) t.(StartTime) t.(EndTime) t.(HasCancel) t.(CtxCancelled).

(** [parseProgressLine(task, line)] *)
Definition parseProgressLine (lib : GoLib) (task : DownloadTask) (line : string) : DownloadTask :=
  if Contains line "% of" then
    let task :=
      match regex_find progress_at line with
      | Some m => match lib.(ParseFloat) m with Some progress => with_progress task progress | None => task end
      | None => task
      end in
    let task :=
      match regex_find speed_at line with
      | Some m => with_speed task m
      | None => task
      end in
    match regex_find eta_at line with
    | Some m => with_eta task m
    | None => task
    end
  else task.

(** All the characters of [s] are decimal digits. *)
Fixpoint all_digits (s : string) : bool :=
  match s with
  | EmptyString => true
  | String c r => is_digit c && all_digits r
  end.

(** All the characters of [s] satisfy [p]. *)
Fixpoint all_chars (p : ascii -> bool) (s : string) : bool :=
  match s with
  | EmptyString => true
  | String c r => p c && all_chars p r
  end.

(** A typical progress line of [yt-dlp --newline]. *)
Definition sample_progress_line : string :=
  "[download]  42.5% of   3.35MiB at    1.20MiB/s ETA 00:02".

(** The lower-case form of a hexadecimal text ([A]-[F] to [a]-[f]). *)
Definition hex_lower_char (c : ascii) : ascii :=
  let n := N_of_ascii c in
  if (65 <=? n)%N && (n <=? 70)%N then ch (n + 32) else c.

Fixpoint hex_lower (s : string) : string :=
  match s with
  | EmptyString => EmptyString
  | String c r => String (hex_lower_char c) (hex_lower r)
  end.

(** Every character of [s] is a hexadecimal digit, of either case. *)
Fixpoint all_hex (s : string) : bool :=
  match s with
  | EmptyString => true
  | String c r => match from_hex_char c with Some _ => all_hex r | None => false end
  end.

(** Every character of [s] is a lower-case hexadecimal digit. *)
Fixpoint all_lower_hex (s : string) : bool :=
  match s with
  | EmptyString => true
  | String c r =>
      let n := N_of_ascii c in
      ((48 <=? n)%N && (n <=? 57)%N || (97 <=? n)%N && (n <=? 102)%N) && all_lower_hex r
  end.

(** Every registered task is filed under its own id, and that id is the
    hex form of the artifact path [runDownload] computes from the task's
    URL and format id. *)
Definition ids_located (lib : GoLib) (s : Service) : Prop :=
  forall (taskID : string) (t : DownloadTask), s.(downloads) !! taskID = Some t ->
    t.(ID) = taskID /\ FromHex taskID = (s3Location_of lib t, None).

(** Every external step of [runDownload] succeeds. *)
Definition env_success : RunEnv := mkRunEnv false None None None None None.

(** The sample task once its command has been started. *)
Definition sample_running : Service :=
  mkService {[ sample_task.(ID) := with_state_only sample_task "downloading" ]} [sample_task.(ID)].

(* ================================================================== *)
(** * Proofs *)

Example audio_id_sample :
  ParseAudioFormatID (buildAudioFormatID "m4a" 44100 "140") = ("m4a", 44100%Z, "140", None).
Proof. reflexivity. Qed.

Example video_id_sample :
  ParseVideoFormatID (buildVideoFormatID "mp4" "1920x1080" "137" "140")
  = ("mp4", "1920x1080", "137+140", None).
Proof. reflexivity. Qed.

Example to_hex_sample : ToHex "hello" = "68656c6c6f".
Proof. reflexivity. Qed.

(* ------------------------------------------------------------------ *)
(** ** Lemmas on the string helpers *)

Lemma hex_pair_char (c : ascii) :
  hex_pair (hex_char (N_of_ascii c / 16)) (hex_char (N_of_ascii c mod 16)) = Some c.
Proof. destruct c as [[] [] [] [] [] [] [] []]; reflexivity. Qed.

Lemma hex_decode_ToHex (s : string) : hex_decode (ToHex s) = Some s.
Proof.
  induction s as [|c s IH]; [reflexivity|].
  cbn [ToHex hex_decode]. rewrite hex_pair_char, IH. reflexivity.
Qed.

Lemma FromHex_ToHex (s : string) : FromHex (ToHex s) = (s, None).
Proof. unfold FromHex. rewrite hex_decode_ToHex. reflexivity. Qed.

Lemma digit_char_facts (d : N) :
  (d < 10)%N ->
  is_digit (digit_char d) = true /\ (N_of_ascii (digit_char d) - 48 = d)%N /\
  Ascii.eqb (digit_char d) "_" = false /\ Ascii.eqb (digit_char d) "+" = false /\
  Ascii.eqb (digit_char d) "-" = false.
Proof.
  intros Hd.
  assert (d = 0 \/ d = 1 \/ d = 2 \/ d = 3 \/ d = 4 \/ d = 5 \/ d = 6 \/
          d = 7 \/ d = 8 \/ d = 9)%N as Hcases by lia.
  repeat destruct Hcases as [->|Hcases]; subst; vm_compute; repeat split.
Qed.

Lemma dec_digits_spec (fuel : nat) :
  forall (n : N) (acc : string), (N.to_nat n <= fuel)%nat ->
  digits_val (dec_digits fuel n acc) 0 = digits_val acc n /\
  no_us (dec_digits fuel n acc) = no_us acc /\
  exists c r, dec_digits fuel n acc = String c r /\ is_digit c = true /\
              Ascii.eqb c "+" = false /\ Ascii.eqb c "-" = false.
Proof.
  induction fuel as [|f IH]; intros n acc Hn.
  - assert (n = 0%N) as -> by lia. cbn.
    split; [reflexivity|]. split; [reflexivity|].
    exists "0"%char, acc. repeat split.
  - cbn [dec_digits]. destruct (n <? 10)%N eqn:Hlt.
    + apply N.ltb_lt in Hlt.
      destruct (digit_char_facts n Hlt) as (Hdig & Hval & Hus & Hp & Hm).
      cbn [digits_val no_us]. rewrite Hdig, Hval, Hus.
      replace (0 * 10 + n)%N with n by lia.
      split; [reflexivity|]. split; [reflexivity|].
      exists (digit_char n), acc. auto.
    + apply N.ltb_ge in Hlt.
      assert (Hm10 : (n mod 10 < 10)%N) by (apply N.mod_lt; lia).
      destruct (digit_char_facts _ Hm10) as (Hdig & Hval & Hus & _ & _).
      destruct (IH (n / 10)%N (String (digit_char (n mod 10)) acc)) as (H1 & H2 & H3).
      { assert (n / 10 < n)%N by (apply N.div_lt; lia). lia. }
      split; [|split; [|exact H3]].
      * rewrite H1. cbn [digits_val]. rewrite Hdig, Hval.
        replace (n / 10 * 10 + n mod 10)%N with n; [reflexivity|].
        rewrite (N.div_mod n 10) at 1 by lia. lia.
      * rewrite H2. cbn [no_us]. rewrite Hus. reflexivity.
Qed.

Lemma digits_val_fmt_uint (n : N) :
  digits_val (fmt_uint n) 0 = Some n /\ no_us (fmt_uint n) = true /\
  exists c r, fmt_uint n = String c r /\ is_digit c = true /\
              Ascii.eqb c "+" = false /\ Ascii.eqb c "-" = false.
Proof.
  unfold fmt_uint. destruct (dec_digits_spec (N.to_nat n) n EmptyString) as (H1 & H2 & H3);
    [lia|]. rewrite H1, H2. auto.
Qed.

Lemma ParseInt_fmt_int (z : Z) : int64_range z -> ParseInt (fmt_int z) = Some z.
Proof.
  unfold int64_range, fmt_int. intros Hz. destruct (z <? 0)%Z eqn:Hneg.
  - apply Z.ltb_lt in Hneg.
    destruct (digits_val_fmt_uint (Z.to_N (- z))) as (Hv & _ & c & r & Heq & _).
    cbn [ParseInt]. rewrite Heq. cbn -[digits_val N.pow]. rewrite <- Heq, Hv.
    assert (Hb : (Z.to_N (- z) <= 2 ^ 63)%N) by lia.
    assert (Hb' : (Z.to_N (- z) <= 2 ^ 64 - 1)%N) by lia.
    apply N.leb_le in Hb, Hb'. rewrite Hb', Hb. f_equal. lia.
  - apply Z.ltb_ge in Hneg.
    destruct (digits_val_fmt_uint (Z.to_N z)) as (Hv & _ & c & r & Heq & _ & Hp & Hm).
    rewrite Heq. cbn [ParseInt]. rewrite Hp, Hm. cbn -[digits_val N.pow].
    rewrite <- Heq, Hv.
    assert (Hb : (Z.to_N z < 2 ^ 63)%N) by lia.
    assert (Hb' : (Z.to_N z <= 2 ^ 64 - 1)%N) by lia.
    apply N.leb_le in Hb'. apply N.ltb_lt in Hb. rewrite Hb', Hb. f_equal. lia.
Qed.

Lemma SplitUU_cons (c : ascii) (rest : string) :
  Ascii.eqb c "_" = false -> SplitUU (String c rest) = cons_first c (SplitUU rest).
Proof. intros Hc. destruct rest as [|c' rest']; [reflexivity|]. cbn. rewrite Hc. reflexivity. Qed.

Lemma SplitUU_sep (x y : string) :
  no_us x = true -> SplitUU (x +:+ "__" +:+ y) = x :: SplitUU y.
Proof.
  induction x as [|c x IH]; intros Hx; [reflexivity|].
  cbn [no_us] in Hx. apply andb_true_iff in Hx as [Hc Hx].
  apply negb_true_iff in Hc.
  change (SplitUU (String c (x +:+ "__" +:+ y)) = String c x :: SplitUU y).
  rewrite SplitUU_cons by exact Hc. rewrite IH by exact Hx. reflexivity.
Qed.

Lemma SplitUU_field (x : string) : no_us x = true -> SplitUU x = [x].
Proof.
  induction x as [|c x IH]; intros Hx; [reflexivity|].
  cbn [no_us] in Hx. apply andb_true_iff in Hx as [Hc Hx].
  apply negb_true_iff in Hc. rewrite SplitUU_cons by exact Hc.
  rewrite IH by exact Hx. reflexivity.
Qed.

Lemma no_us_app (x y : string) : no_us (x +:+ y) = no_us x && no_us y.
Proof.
  induction x as [|c x IH]; [reflexivity|].
  change (negb (Ascii.eqb c "_") && no_us (x +:+ y) =
          (negb (Ascii.eqb c "_") && no_us x) && no_us y).
  rewrite IH. apply andb_assoc.
Qed.

(* ------------------------------------------------------------------ *)
(** ** Format ids *)

Lemma ParseAudioFormatID_build (ext : string) (asr : Z) (formatID : string) :
  no_us ext = true -> no_us formatID = true -> int64_range asr ->
  ParseAudioFormatID (buildAudioFormatID ext asr formatID) = (ext, asr, formatID, None).
Proof.
  intros He Hf Ha. unfold ParseAudioFormatID, buildAudioFormatID.
  rewrite FromHex_ToHex.
  change ("a__" +:+ ext +:+ "__" +:+ fmt_int asr +:+ "__" +:+ formatID)
    with ("a" +:+ "__" +:+ ext +:+ "__" +:+ fmt_int asr +:+ "__" +:+ formatID).
  assert (Hd : no_us (fmt_int asr) = true).
  { unfold fmt_int. destruct (asr <? 0)%Z;
      [change (no_us (fmt_uint (Z.to_N (- asr))) = true)|];
      apply digits_val_fmt_uint. }
  rewrite (SplitUU_sep "a") by reflexivity.
  rewrite SplitUU_sep by exact He. rewrite SplitUU_sep by exact Hd.
  rewrite SplitUU_field by exact Hf. cbn -[ParseInt fmt_int].
  rewrite ParseInt_fmt_int by exact Ha. reflexivity.
Qed.

Lemma ParseVideoFormatID_build (ext resolution vFormatID aFormatID : string) :
  no_us ext = true -> no_us resolution = true -> no_us vFormatID = true ->
  no_us aFormatID = true ->
  ParseVideoFormatID (buildVideoFormatID ext resolution vFormatID aFormatID)
  = (ext, resolution,
     vFormatID +:+ (if String.eqb aFormatID "" then "" else "+" +:+ aFormatID), None).
Proof.
  intros He Hr Hv Ha. unfold ParseVideoFormatID, buildVideoFormatID.
  rewrite FromHex_ToHex.
  set (va := vFormatID +:+ (if String.eqb aFormatID "" then "" else "+" +:+ aFormatID)).
  assert (Hva : no_us va = true).
  { unfold va. rewrite no_us_app, Hv.
    destruct (String.eqb aFormatID ""); [reflexivity|]. exact Ha. }
  assert (Hs : (if String.eqb aFormatID "" then aFormatID else "+" +:+ aFormatID)
               = (if String.eqb aFormatID "" then "" else "+" +:+ aFormatID)).
  { destruct (String.eqb aFormatID "") eqn:E; [apply String.eqb_eq in E|]; auto. }
  rewrite Hs. fold va.
  change ("v__" +:+ ext +:+ "__" +:+ resolution +:+ "__" +:+ va)
    with ("v" +:+ "__" +:+ ext +:+ "__" +:+ resolution +:+ "__" +:+ va).
  rewrite (SplitUU_sep "v") by reflexivity.
  rewrite SplitUU_sep by exact He. rewrite SplitUU_sep by exact Hr.
  rewrite SplitUU_field by exact Hva. reflexivity.
Qed.

Lemma IsVideoFormatID_audio (ext : string) (asr : Z) (formatID : string) :
  IsVideoFormatID (buildAudioFormatID ext asr formatID) = false.
Proof. unfold IsVideoFormatID, buildAudioFormatID. rewrite FromHex_ToHex. reflexivity. Qed.

Lemma IsVideoFormatID_video (ext resolution vFormatID aFormatID : string) :
  IsVideoFormatID (buildVideoFormatID ext resolution vFormatID aFormatID) = true.
Proof. unfold IsVideoFormatID, buildVideoFormatID. rewrite FromHex_ToHex. reflexivity. Qed.

(** Claim C2 (counterexample): a valid audio token whose last hex digit
    is changed from ['0'] to ['1'] still decodes, to the source id ["141"]
    instead of ["140"]: a single corrupted character does not make the
    decoding fail. *)
Lemma C2_corrupted_token_decodes :
  let tok := buildAudioFormatID "m4a" 44100 "140" in
  ParseAudioFormatID tok = ("m4a", 44100%Z, "140", None) /\
  String.get 35 tok = Some "0"%char /\
  ParseAudioFormatID (set_char tok 35 "1") = ("m4a", 44100%Z, "141", None).
Proof. vm_compute. auto. Qed.

(** Claim C2 (amended): encoding then decoding a format id returns the
    encoded fields whenever the extension, the resolution and the source
    ids contain no ['_'] and the sample rate is a 64-bit integer; an audio
    id decodes to [(ext, asr, formatID)], a video id to
    [(ext, resolution, vFormatID)] or [(ext, resolution, vFormatID+aFormatID)]
    (the paired selector), and [IsVideoFormatID] tells the two kinds
    apart.  (Changing one character of a token does not always make the
    decoding fail.) *)
Theorem format_id_roundtrip :
  (forall (ext : string) (asr : Z) (formatID : string),
     no_us ext = true -> no_us formatID = true -> int64_range asr ->
     ParseAudioFormatID (buildAudioFormatID ext asr formatID) = (ext, asr, formatID, None) /\
     IsVideoFormatID (buildAudioFormatID ext asr formatID) = false) /\
  (forall (ext resolution vFormatID aFormatID : string),
     no_us ext = true -> no_us resolution = true -> no_us vFormatID = true ->
     no_us aFormatID = true ->
     ParseVideoFormatID (buildVideoFormatID ext resolution vFormatID aFormatID)
     = (ext, resolution,
        vFormatID +:+ (if String.eqb aFormatID "" then "" else "+" +:+ aFormatID), None) /\
     IsVideoFormatID (buildVideoFormatID ext resolution vFormatID aFormatID) = true).
Proof.
  split.
  - intros. split; [apply ParseAudioFormatID_build; assumption|apply IsVideoFormatID_audio].
  - intros. split; [apply ParseVideoFormatID_build; assumption|apply IsVideoFormatID_video].
Qed.

(* ------------------------------------------------------------------ *)
(** ** The task registry *)

Section Registry.

Variable lib : GoLib.

Lemma StartDownload_existing (s : Service) (url formatID : string) (now : Z)
      (taskID : string) (t : DownloadTask) :
  getTaskId lib url formatID = (taskID, None) ->
  s.(downloads) !! taskID = Some t ->
  StartDownload lib s url formatID now = (s, (taskID, None)).
Proof. intros Hid Ht. unfold StartDownload. rewrite Hid, Ht. reflexivity. Qed.

Lemma StartDownload_ok (s s1 : Service) (url formatID : string) (now : Z) (taskID : string) :
  StartDownload lib s url formatID now = (s1, (taskID, None)) ->
  getTaskId lib url formatID = (taskID, None) /\ exists t, s1.(downloads) !! taskID = Some t.
Proof.
  unfold StartDownload. destruct (getTaskId lib url formatID) as [id [err|]] eqn:Hid.
  - intros H. inversion H.
  - destruct (s.(downloads) !! id) as [t|] eqn:Ht.
    + intros H. inversion H; subst. eauto.
    + intros H. inversion H; subst. split; [reflexivity|].
      eexists. cbn. apply lookup_insert_eq.
Qed.

(** [getTaskId] through the fields it reads from the URL and the token. *)
Lemma getTaskId_fields (url formatID : string) :
  getTaskId lib url formatID =
  match CheckUrl lib url with
  | (_, _, Some err) => ("", Some err)
  | (_, videoID, None) =>
      let '(kind, disc, ext) := token_fields formatID in
      (ToHex (videoID +:+ "/" +:+ kind +:+ "/" +:+ disc +:+ "/" +:+ videoID +:+ "." +:+ ext), None)
  end.
Proof.
  unfold getTaskId, token_fields. destruct (CheckUrl lib url) as [[cu videoID] [err|]]; [reflexivity|].
  destruct (IsVideoFormatID formatID).
  - destruct (ParseVideoFormatID formatID) as [[[ext res] va] e]. reflexivity.
  - destruct (ParseAudioFormatID formatID) as [[[ext asr] fid] e]. reflexivity.
Qed.

(** Claim C1: the task id of [StartDownload] is
    [ToHex(videoID/kind/disc/videoID.ext)], a function of the content id
    and of the kind, discriminator and extension read from the format
    id; once a call has returned an id, its task is registered, a second
    call with the same pair returns the same id without changing the
    service (no insertion, no spawned download), and so does any call
    while a task with that id exists, whatever its state. *)
Theorem StartDownload_idempotent (s s1 : Service) (url formatID : string)
        (now1 now2 : Z) (taskID : string) :
  StartDownload lib s url formatID now1 = (s1, (taskID, None)) ->
  (let '(kind, disc, ext) := token_fields formatID in
   let videoID := (CheckUrl lib url).1.2 in
   taskID = ToHex (videoID +:+ "/" +:+ kind +:+ "/" +:+ disc +:+ "/" +:+ videoID +:+ "." +:+ ext)) /\
  (exists t, s1.(downloads) !! taskID = Some t) /\
  StartDownload lib s1 url formatID now2 = (s1, (taskID, None)) /\
  (forall (s' : Service) (t : DownloadTask), s'.(downloads) !! taskID = Some t ->
     StartDownload lib s' url formatID now2 = (s', (taskID, None))).
Proof.
  intros H. destruct (StartDownload_ok _ _ _ _ _ _ H) as [Hid [t Ht]].
  split; [|split; [eauto|split]].
  - rewrite getTaskId_fields in Hid.
    destruct (CheckUrl lib url) as [[cu v] [e|]]; [discriminate|].
    destruct (token_fields formatID) as [[k d] e]. cbn. inversion Hid. reflexivity.
  - eapply StartDownload_existing; eauto.
  - intros s' t' Ht'. eapply StartDownload_existing; eauto.
Qed.

(** Claim C6 (as the code has it): the only error [StartDownload] returns is the
    error of the URL check; whenever the URL is accepted, every format
    id, malformed or of the wrong kind included, yields a task id and a
    registered task. *)
Theorem StartDownload_error_is_url_error (s : Service) (url formatID : string) (now : Z) :
  (StartDownload lib s url formatID now).2.2 = (CheckUrl lib url).2 /\
  ((CheckUrl lib url).2 = None ->
   exists t, (StartDownload lib s url formatID now).1.(downloads)
               !! (StartDownload lib s url formatID now).2.1 = Some t).
Proof.
  assert (Hres : (StartDownload lib s url formatID now).2.2 = (CheckUrl lib url).2).
  { unfold StartDownload. rewrite getTaskId_fields.
    destruct (CheckUrl lib url) as [[cu v] [e|]]; [reflexivity|].
    destruct (token_fields formatID) as [[k d] x]. cbn.
    destruct (s.(downloads) !! _); [reflexivity|]. reflexivity. }
  split; [exact Hres|]. intros Hok.
  destruct (StartDownload lib s url formatID now) as [s1 [id err]] eqn:E.
  cbn in Hres |- *. rewrite Hok in Hres. subst err.
  destruct (StartDownload_ok _ _ _ _ _ _ E) as [_ Ht]. exact Ht.
Qed.

Lemma all_cancellable_empty : all_cancellable (mkService ∅ []).
Proof. intros id t H. cbn in H. rewrite lookup_empty in H. discriminate. Qed.

Lemma StartDownload_all_cancellable (s : Service) (url formatID : string) (now : Z) :
  all_cancellable s -> all_cancellable (StartDownload lib s url formatID now).1.
Proof.
  intros Hs. unfold StartDownload.
  destruct (getTaskId lib url formatID) as [id [e|]]; [exact Hs|].
  destruct (s.(downloads) !! id); [exact Hs|]. cbn [fst downloads].
  intros id' t H. cbn [downloads] in H. destruct (decide (id = id')) as [->|Hne].
  - rewrite lookup_insert_eq in H. inversion H. reflexivity.
  - rewrite lookup_insert_ne in H by exact Hne. eapply Hs; eauto.
Qed.

Lemma CancelDownload_all_cancellable (s : Service) (taskID : string) (now : Z) :
  all_cancellable s -> all_cancellable (CancelDownload s taskID now).1.
Proof.
  intros Hs. unfold CancelDownload.
  destruct (s.(downloads) !! taskID) as [t|] eqn:Ht; [|exact Hs].
  destruct (String.eqb t.(State) "downloading" && t.(HasCancel)); [|exact Hs].
  cbn [fst downloads]. intros id' t' H. cbn [downloads] in H. destruct (decide (taskID = id')) as [->|Hne].
  - rewrite lookup_insert_eq in H. inversion H. cbn. eapply Hs; eauto.
  - rewrite lookup_insert_ne in H by exact Hne. eapply Hs; eauto.
Qed.

Lemma cleanup_all_cancellable (s : Service) (now : Z) :
  all_cancellable s -> all_cancellable (cleanupCompletedTasks now s).
Proof.
  intros Hs id t H. cbn [cleanupCompletedTasks downloads] in H. apply map_lookup_filter_Some in H as [H _]. eapply Hs; eauto.
Qed.

(** Claim C7: on a registry whose tasks all carry a cancel function (as
    every task [StartDownload] registers does), [CancelDownload] fails
    with "download task not found" on an absent id; on a downloading task
    it calls the cancel function, sets the state to "failed", the error to
    "Download cancelled by user" and the end time to now, and touches
    nothing else; on a completed or failed task it succeeds and changes
    nothing. *)
Theorem CancelDownload_contract (s : Service) (taskID : string) (now : Z) :
  all_cancellable s ->
  (s.(downloads) !! taskID = None ->
   CancelDownload s taskID now = (s, Some "download task not found")) /\
  (forall t, s.(downloads) !! taskID = Some t -> t.(State) = "downloading" ->
   (CancelDownload s taskID now).2 = None /\
   (CancelDownload s taskID now).1.(spawned) = s.(spawned) /\
   (forall id', id' <> taskID ->
      (CancelDownload s taskID now).1.(downloads) !! id' = s.(downloads) !! id') /\
   (CancelDownload s taskID now).1.(downloads) !! taskID =
     Some {| ID := t.(ID); TURL := t.(TURL); Format := t.(Format); State := "failed";
             Progress := t.(Progress); Speed := t.(Speed); ETA := t.(ETA);
             DownloadUrl := t.(DownloadUrl); Error := "Download cancelled by user";
             StartTime := t.(StartTime); EndTime := now;
             HasCancel := t.(HasCancel); CtxCancelled := true |}) /\
  (forall t, s.(downloads) !! taskID = Some t ->
   t.(State) = "completed" \/ t.(State) = "failed" ->
   CancelDownload s taskID now = (s, None)).
Proof.
  intros Hs. unfold CancelDownload. split; [|split].
  - intros ->. reflexivity.
  - intros t Ht Hst. rewrite Ht, Hst, String.eqb_refl, (Hs _ _ Ht). cbn [fst snd downloads spawned andb].
    split; [reflexivity|]. split; [reflexivity|]. split.
    + intros id' Hne. apply lookup_insert_ne. congruence.
    + rewrite lookup_insert_eq. pose proof (Hs _ _ Ht) as Hc. destruct t; cbn in *; subst; reflexivity.
  - intros t Ht [Hst|Hst]; rewrite Ht, Hst; reflexivity.
Qed.

(** Claim C10: cancelling a pending task succeeds and changes nothing:
    the cancel function is not called and the task keeps every field; the
    runner then starts the download of that same task as usual. *)
Theorem CancelDownload_pending (s : Service) (taskID : string) (now : Z) (t : DownloadTask) :
  s.(downloads) !! taskID = Some t -> t.(State) = "pending" ->
  CancelDownload s taskID now = (s, None) /\
  (forall (cfg : Config) (env : RunEnv) (now1 : Z) (decoded : string),
     FromHex t.(ID) = (decoded, None) -> env.(location_exists) = false ->
     env.(stdout_pipe_err) = None -> env.(stderr_pipe_err) = None -> env.(start_err) = None ->
     runDownload_start cfg env now1 t = (with_state_only t "downloading", true)).
Proof.
  intros Ht Hst. split.
  - unfold CancelDownload. rewrite Ht, Hst. reflexivity.
  - intros cfg env now1 decoded Hd Hl Ho He Hs. unfold runDownload_start.
    rewrite Hd, Hl, Ho, He, Hs. reflexivity.
Qed.

(** Claim C8 (amended): one cleanup pass removes a registered task
    exactly when it is completed or failed, its end time is not the zero
    time, and more than ten minutes have passed since that end time; it
    keeps every other task unchanged, so a pending or downloading task is
    never removed, and it adds nothing. *)
Theorem cleanup_removes_exactly (now : Z) (s : Service) (taskID : string) (t : DownloadTask) :
  s.(downloads) !! taskID = Some t ->
  ((cleanupCompletedTasks now s).(downloads) !! taskID = None <->
   (t.(State) = "completed" \/ t.(State) = "failed") /\ t.(EndTime) <> zero_time /\
   (10 * Minute < time_Sub now t.(EndTime))%Z) /\
  ((cleanupCompletedTasks now s).(downloads) !! taskID = None \/
   (cleanupCompletedTasks now s).(downloads) !! taskID = Some t) /\
  (t.(State) = "pending" \/ t.(State) = "downloading" ->
   (cleanupCompletedTasks now s).(downloads) !! taskID = Some t).
Proof.
  intros Ht.
  assert (Hdue : cleanup_due now t = true <->
                 (t.(State) = "completed" \/ t.(State) = "failed") /\ t.(EndTime) <> zero_time /\
                 (10 * Minute < time_Sub now t.(EndTime))%Z).
  { unfold cleanup_due, IsZero.
    rewrite !andb_true_iff, orb_true_iff, negb_true_iff, !String.eqb_eq, Z.eqb_neq, Z.ltb_lt.
    tauto. }
  assert (Hnone : (cleanupCompletedTasks now s).(downloads) !! taskID = None <-> cleanup_due now t = true).
  { cbn [cleanupCompletedTasks downloads]. rewrite map_lookup_filter_None. split.
    - intros [H|H]; [congruence|]. specialize (H t Ht). cbn in H.
      destruct (cleanup_due now t); [reflexivity|]. exfalso. apply H. reflexivity.
    - intros Hd. right. intros x Hx. rewrite Ht in Hx. inversion Hx; subst. cbn. congruence. }
  assert (Hsome : cleanup_due now t = false ->
                  (cleanupCompletedTasks now s).(downloads) !! taskID = Some t).
  { intros Hd. cbn [cleanupCompletedTasks downloads]. apply map_lookup_filter_Some. auto. }
  split; [rewrite Hnone; exact Hdue|split].
  - destruct (cleanup_due now t) eqn:Hd; [left; apply Hnone; reflexivity|right; apply Hsome; reflexivity].
  - intros Hst. apply Hsome. destruct (cleanup_due now t) eqn:Hd; [|reflexivity].
    destruct (proj1 Hdue eq_refl) as [[Hc|Hc] _]; destruct Hst as [Hp|Hp]; congruence.
Qed.

Lemma cleanup_no_new (now : Z) (s : Service) (taskID : string) :
  s.(downloads) !! taskID = None -> (cleanupCompletedTasks now s).(downloads) !! taskID = None.
Proof. intros H. cbn [cleanupCompletedTasks downloads]. apply map_lookup_filter_None. auto. Qed.

(** Claim C9: for a string that [url.Parse] accepts, [CheckUrl] succeeds
    exactly when the scheme is empty, "http" or "https", the host is
    "youtube.com", "m.youtube.com" or "www.youtube.com", the path is
    "/watch" and the first [v] query value is not empty; it then returns
    that value as the video id and the URL with scheme "https" and host
    "www.youtube.com".  Any other scheme, host, path or an empty or
    absent [v] makes it fail. *)
Theorem CheckUrl_spec (urlStr : string) (u : URL) :
  lib.(url_Parse) urlStr = Some u ->
  let v := Values_Get (lib.(ParseQuery) u.(RawQuery)) "v" in
  let ok := (u.(Scheme) = "" \/ u.(Scheme) = "http" \/ u.(Scheme) = "https") /\
            (u.(Host) = "youtube.com" \/ u.(Host) = "m.youtube.com" \/
             u.(Host) = "www.youtube.com") /\
            u.(Path) = "/watch" /\ v <> "" in
  (ok -> CheckUrl lib urlStr =
         (lib.(URL_String) (set_Host (set_Scheme u "https") "www.youtube.com"), v, None)) /\
  (~ ok -> exists err, (CheckUrl lib urlStr).2 = Some err).
Proof.
  intros Hp v ok. unfold CheckUrl. rewrite Hp. subst ok v.
  destruct u as [sc op us ho pa rq fr]; cbn [Scheme Host Path RawQuery set_Scheme set_Host].
  destruct (String.eqb_spec sc "") as [->|Hs1]; [|destruct (String.eqb_spec sc "http") as [->|Hs2];
    [|destruct (String.eqb_spec sc "https") as [->|Hs3]]]; cbn -[String.eqb Values_Get];
  try (split; [intros (Hsc & _); exfalso; intuition congruence|eauto]);
  (destruct (String.eqb_spec ho "youtube.com") as [->|Hh1]; [|destruct (String.eqb_spec ho "m.youtube.com") as [->|Hh2];
    [|destruct (String.eqb_spec ho "www.youtube.com") as [->|Hh3]]]); cbn -[String.eqb Values_Get];
  try (split; [intros (_ & Hho & _); exfalso; intuition congruence|eauto]);
  (destruct (String.eqb_spec pa "/watch") as [->|Hpa]); cbn -[String.eqb Values_Get];
  try (split; [intros (_ & _ & Hpa' & _); exfalso; intuition congruence|eauto]);
  (destruct (String.eqb_spec (Values_Get (ParseQuery lib rq) "v") "") as [Hv|Hv]); cbn -[String.eqb Values_Get];
  try (split; [intros (_ & _ & _ & Hv'); exfalso; intuition congruence|eauto]);
  split; try reflexivity; intros Hn; exfalso; apply Hn; intuition congruence.
Qed.

(** The terminal paths of [runDownload] that do set the end time: an
    undecodable task id, an artifact already in place, a [cmd.Wait()]
    error (cancellation included), and a successful move. *)
Lemma runDownload_stamped_paths (cfg : Config) (env : RunEnv) (now1 now2 : Z) (t : DownloadTask) :
  ((exists err, (FromHex t.(ID)).2 = Some err) ->
   (runDownload lib cfg env now1 now2 t).(State) = "failed" /\
   (runDownload lib cfg env now1 now2 t).(EndTime) = now1) /\
  ((FromHex t.(ID)).2 = None -> env.(location_exists) = true ->
   (runDownload lib cfg env now1 now2 t).(State) = "completed" /\
   (runDownload lib cfg env now1 now2 t).(EndTime) = now1) /\
  ((FromHex t.(ID)).2 = None -> env.(location_exists) = false ->
   env.(stdout_pipe_err) = None -> env.(stderr_pipe_err) = None -> env.(start_err) = None ->
   (env.(wait_err) <> None \/ env.(move_err) = None) ->
   (runDownload lib cfg env now1 now2 t).(EndTime) = now2).
Proof.
  unfold runDownload, runDownload_start.
  destruct (FromHex t.(ID)) as [decoded [err|]]; cbn [snd].
  - split; [intros _; split; reflexivity|]. split; intros H; discriminate.
  - split; [intros [e He]; discriminate|]. split.
    + intros _ ->. split; reflexivity.
    + intros _ -> -> -> -> Hw. unfold runDownload_finish.
      destruct (wait_err env) as [w|]; [reflexivity|].
      cbn [State with_state_only with_state]. rewrite (proj2 (String.eqb_neq "downloading" "failed")) by discriminate.
      destruct Hw as [Hw | ->]; [congruence|reflexivity].
Qed.

(** Claim C4 (failing paths): when the pipes cannot be set up or the
    command does not start, and when the move of the downloaded file
    fails after a successful run, [runDownload] leaves the task "failed"
    with the end time it had, i.e. the zero time for a task created by
    [StartDownload]. *)
Theorem runDownload_unstamped_failures (cfg : Config) (env : RunEnv) (now1 now2 : Z)
        (t : DownloadTask) (decoded : string) :
  FromHex t.(ID) = (decoded, None) -> env.(location_exists) = false ->
  ((env.(stdout_pipe_err) <> None \/ env.(stderr_pipe_err) <> None \/ env.(start_err) <> None) ->
   (runDownload lib cfg env now1 now2 t).(State) = "failed" /\
   (runDownload lib cfg env now1 now2 t).(EndTime) = t.(EndTime)) /\
  (env.(stdout_pipe_err) = None -> env.(stderr_pipe_err) = None -> env.(start_err) = None ->
   env.(wait_err) = None -> env.(move_err) <> None ->
   (runDownload lib cfg env now1 now2 t).(State) = "failed" /\
   (runDownload lib cfg env now1 now2 t).(EndTime) = t.(EndTime)).
Proof.
  intros Hd Hl. unfold runDownload, runDownload_start. rewrite Hd, Hl. split.
  - intros Herr.
    destruct (stdout_pipe_err env) as [e1|]; [split; reflexivity|].
    destruct (stderr_pipe_err env) as [e2|]; [split; reflexivity|].
    destruct (start_err env) as [e3|]; [split; reflexivity|].
    exfalso. intuition congruence.
  - intros -> -> -> Hw Hm. unfold runDownload_finish. rewrite Hw.
    cbn [State with_state_only with_state].
    rewrite (proj2 (String.eqb_neq "downloading" "failed")) by discriminate.
    destruct (move_err env) as [m|]; [split; reflexivity|congruence].
Qed.

End Registry.


(* ------------------------------------------------------------------ *)
(** ** Selection of the best variant per bucket *)

Ltac cmp_cases :=
  repeat match goal with
  | |- context [Z.eqb ?x ?y] => destruct (Z.eqb_spec x y)
  | |- context [Z.ltb ?x ?y] => destruct (Z.ltb_spec x y)
  | |- context [Qeq_bool ?x ?y] =>
      let E := fresh "E" in
      destruct (Qeq_bool x y) eqn:E; [apply Qeq_bool_iff in E | apply Qeq_bool_neq in E]
  | |- context [Qle_bool ?x ?y] =>
      let E := fresh "E" in
      destruct (Qle_bool x y) eqn:E;
      [apply Qle_bool_iff in E | assert (~ (x <= y)%Q) by (rewrite <- Qle_bool_iff; congruence); clear E]
  end; cbn [negb].

Lemma isAudioFormatMapBetter_true (a b : fmap) :
  isAudioFormatMapBetter a b = true <-> audio_rank_le b a.
Proof. unfold isAudioFormatMapBetter, audio_rank_le. cmp_cases; split; intros; try lia. Qed.

Lemma isAudioFormatMapBetter_false (a b : fmap) :
  isAudioFormatMapBetter a b = false <-> audio_rank_lt a b.
Proof. unfold isAudioFormatMapBetter, audio_rank_lt. cmp_cases; split; intros; try lia. Qed.

Lemma isVideoFormatMapBetter_true (lib : GoLib) (a b : fmap) :
  isVideoFormatMapBetter lib a b = true <-> video_rank_le lib b a.
Proof.
  unfold isVideoFormatMapBetter, video_rank_le.
  cmp_cases; split; intros Hg; try discriminate; try reflexivity;
    repeat match goal with H : _ \/ _ |- _ => destruct H | H : _ /\ _ |- _ => destruct H end;
    try lia; try (exfalso; lra); try (left; lia);
    right; (split; [lia|]); first [left; lra | right; split; [lra|lia]].
Qed.

Lemma isVideoFormatMapBetter_false (lib : GoLib) (a b : fmap) :
  isVideoFormatMapBetter lib a b = false <-> video_rank_lt lib a b.
Proof.
  unfold isVideoFormatMapBetter, video_rank_lt.
  cmp_cases; split; intros Hg; try discriminate; try reflexivity;
    repeat match goal with H : _ \/ _ |- _ => destruct H | H : _ /\ _ |- _ => destruct H end;
    try lia; try (exfalso; lra); try (left; lia);
    right; (split; [lia|]); first [left; lra | right; split; [lra|lia]].
Qed.

Section Select.
Variable A : Type.
Variable better : A -> A -> bool.
Hypothesis better_trans :
  forall a b c, better a b = true -> better b c = true -> better a c = true.
Hypothesis better_total : forall a b, better a b = false -> better b a = true.

Lemma better_refl (a : A) : better a a = true.
Proof.
  case_eq (better a a); intros E; [reflexivity|].
  rewrite (better_total a a E) in E. discriminate.
Qed.

(** The survivor is the last element that no later one beats: every
    element before it is no better than it, every element after it
    strictly worse. *)
Lemma sel_last_max (l : list A) (c : A) :
  exists l1 l2, c :: l = (l1 ++ sel better c l :: l2)%list /\
    Forall (fun x => better (sel better c l) x = true) l1 /\
    Forall (fun x => better x (sel better c l) = false) l2.
Proof.
  revert c. induction l as [|x l IH]; intros c.
  - exists [], []. repeat split; constructor.
  - cbn [sel]. destruct (better x c) eqn:Hxc.
    + destruct (IH x) as (l1 & l2 & Heq & H1 & H2).
      set (s := sel better x l) in *.
      assert (Hxs : better s x = true).
      { destruct l1 as [|y l1]; cbn in Heq; injection Heq as Hx Hl.
        - rewrite Hx. apply better_refl.
        - subst y. inversion H1; assumption. }
      exists (c :: l1), l2. split; [cbn; rewrite Heq; reflexivity|].
      split; [constructor; [eauto|exact H1]|exact H2].
    + destruct (IH c) as (l1 & l2 & Heq & H1 & H2).
      revert Heq H1 H2. generalize (sel better c l) as s. intros s Heq H1 H2.
      destruct l1 as [|y l1]; cbn in Heq; injection Heq as Hc Hl.
      * subst. exists [], (x :: l2). split; [reflexivity|].
        split; [constructor|constructor; [exact Hxc|exact H2]].
      * subst y. exists (c :: x :: l1), l2. split; [cbn; rewrite Hl; reflexivity|].
        inversion H1 as [|? ? Hcs H1']; subst.
        split; [|exact H2].
        constructor; [exact Hcs|constructor; [|exact H1']].
        apply better_total. destruct (better x s) eqn:E; [|reflexivity].
        rewrite (better_trans _ _ _ E Hcs) in Hxc. discriminate.
Qed.

Lemma opt_sel_spec (cur : option A) (l : list A) :
  match opt_sel better cur l with
  | None => cur = None /\ l = []
  | Some s => exists l1 l2,
      (match cur with Some c => c :: l | None => l end) = (l1 ++ s :: l2)%list /\
      Forall (fun x => better s x = true) l1 /\ Forall (fun x => better x s = false) l2
  end.
Proof.
  destruct cur as [c|], l as [|x l]; cbn [opt_sel];
    first [apply sel_last_max | split; reflexivity].
Qed.

End Select.

Lemma fold_bucket_step (better : fmap -> fmap -> bool) (key : fmap -> option string) (k : string)
      (L : list fmap) (cur : option fmap) :
  fold_left (bucket_step better key k) L cur =
  opt_sel better cur (filter (fun fm => key fm = Some k) L).
Proof.
  revert cur. induction L as [|fm L IH]; intros cur.
  - destruct cur; reflexivity.
  - cbn [fold_left]. rewrite IH. unfold bucket_step.
    destruct (decide (key fm = Some k)) as [Hk|Hk].
    + rewrite filter_cons_True by exact Hk.
      destruct cur as [c|]; [|reflexivity].
      cbn [opt_sel sel]. destruct (better fm c); reflexivity.
    + rewrite filter_cons_False by exact Hk. reflexivity.
Qed.

(** One loop iteration, seen from one key of [audioByAsr]. *)
Lemma extract_step_audio (lib : GoLib) (acc : gmap string fmap * gmap string fmap)
      (x : JValue) (k : string) :
  (extract_step lib acc x).1 !! k =
  match x with
  | JObject fm => bucket_step isAudioFormatMapBetter audio_key k (acc.1 !! k) fm
  | _ => acc.1 !! k
  end.
Proof.
  destruct acc as [a v], x as [| | | | |fm]; try reflexivity.
  unfold extract_step, bucket_step, audio_key. cbn [fst].
  repeat case_match; cbn [fst] in *; simplify_eq; try congruence; try reflexivity.
  all: repeat match goal with H : decide _ = _ |- _ => clear H end.
  all: repeat match goal with e : Some _ = Some _ |- _ => injection e as e; subst end.
  all: repeat match goal with n : Some ?x <> Some ?y |- _ =>
         assert (x <> y) by congruence; clear n end.
  all: simplify_map_eq; congruence.
Qed.

Ltac bucket_cases :=
  repeat case_match; cbn [fst snd] in *; simplify_eq; try congruence; try reflexivity;
  repeat match goal with H : decide _ = _ |- _ => clear H end;
  repeat match goal with e : Some _ = Some _ |- _ => injection e as e; subst end;
  repeat match goal with n : Some ?x <> Some ?y |- _ =>
    assert (x <> y) by congruence; clear n end;
  simplify_map_eq; congruence.

(** One loop iteration, seen from one key of [videoByResolution]; an
    audio format skipped by the [asr == 0] [continue] has no video key. *)
Lemma extract_step_video (lib : GoLib) (acc : gmap string fmap * gmap string fmap)
      (x : JValue) (k : string) :
  (extract_step lib acc x).2 !! k =
  match x with
  | JObject fm => bucket_step (isVideoFormatMapBetter lib) video_key k (acc.2 !! k) fm
  | _ => acc.2 !! k
  end.
Proof.
  destruct acc as [a v], x as [| | | | |fm]; try reflexivity.
  unfold extract_step, bucket_step, video_key. cbn [snd].
  destruct (String.eqb (getStringValue fm "vcodec") "none"); cbn [andb negb];
  try rewrite andb_false_r; bucket_cases.
Qed.

Lemma extract_fold_audio (lib : GoLib) (l : list JValue) (acc : gmap string fmap * gmap string fmap)
      (k : string) :
  (fold_left (extract_step lib) l acc).1 !! k =
  fold_left (bucket_step isAudioFormatMapBetter audio_key k) (format_objects l) (acc.1 !! k).
Proof.
  revert acc. induction l as [|x l IH]; intros acc; [reflexivity|].
  cbn [fold_left]. rewrite IH, extract_step_audio.
  destruct x; reflexivity.
Qed.

Lemma extract_fold_video (lib : GoLib) (l : list JValue) (acc : gmap string fmap * gmap string fmap)
      (k : string) :
  (fold_left (extract_step lib) l acc).2 !! k =
  fold_left (bucket_step (isVideoFormatMapBetter lib) video_key k) (format_objects l) (acc.2 !! k).
Proof.
  revert acc. induction l as [|x l IH]; intros acc; [reflexivity|].
  cbn [fold_left]. rewrite IH, extract_step_video.
  destruct x; reflexivity.
Qed.

Ltac rank_cases :=
  repeat match goal with H : _ \/ _ |- _ => destruct H | H : _ /\ _ |- _ => destruct H end;
  first [ exfalso; lia | exfalso; lra | left; lia
        | right; split; lia
        | right; split; [lia|left; lra]
        | right; split; [lia|right; split; [lra|lia]] ].

Lemma isAudioFormatMapBetter_trans (a b c : fmap) :
  isAudioFormatMapBetter a b = true -> isAudioFormatMapBetter b c = true ->
  isAudioFormatMapBetter a c = true.
Proof.
  rewrite !isAudioFormatMapBetter_true. unfold audio_rank_le. intros H1 H2. rank_cases.
Qed.

Lemma isAudioFormatMapBetter_total (a b : fmap) :
  isAudioFormatMapBetter a b = false -> isAudioFormatMapBetter b a = true.
Proof.
  rewrite isAudioFormatMapBetter_false, isAudioFormatMapBetter_true.
  unfold audio_rank_lt, audio_rank_le. intros H. rank_cases.
Qed.

Lemma isVideoFormatMapBetter_trans (lib : GoLib) (a b c : fmap) :
  isVideoFormatMapBetter lib a b = true -> isVideoFormatMapBetter lib b c = true ->
  isVideoFormatMapBetter lib a c = true.
Proof.
  rewrite !isVideoFormatMapBetter_true. unfold video_rank_le. intros H1 H2. rank_cases.
Qed.

Lemma isVideoFormatMapBetter_total (lib : GoLib) (a b : fmap) :
  isVideoFormatMapBetter lib a b = false -> isVideoFormatMapBetter lib b a = true.
Proof.
  rewrite isVideoFormatMapBetter_false, isVideoFormatMapBetter_true.
  unfold video_rank_lt, video_rank_le. intros H. rank_cases.
Qed.

(** Claim C3 (as the code has it): after the loop of
    [extractOptimalFormats], each key of [audioByAsr] (resp.
    [videoByResolution]) holds one format of its bucket, the formats filed
    under that key in input order; it is the LAST format that no later one
    of the bucket beats: the formats before it rank at most as high, the
    formats after it strictly lower, ranking by bitrate as read by
    [getInt64Value] (truncated), then (video) frame rate, then file size.
    On a full tie the later format replaces the earlier one. A key is
    absent exactly when its bucket is empty. *)
Theorem extractOptimalFormats_selection (lib : GoLib) (rawInfo : fmap) (k : string) :
  match (extract_buckets lib rawInfo).1 !! k with
  | None => audio_bucket rawInfo k = []
  | Some s => exists l1 l2, audio_bucket rawInfo k = (l1 ++ s :: l2)%list /\
      Forall (fun x => audio_rank_le x s) l1 /\ Forall (fun x => audio_rank_lt x s) l2
  end /\
  match (extract_buckets lib rawInfo).2 !! k with
  | None => video_bucket rawInfo k = []
  | Some s => exists l1 l2, video_bucket rawInfo k = (l1 ++ s :: l2)%list /\
      Forall (fun x => video_rank_le lib x s) l1 /\ Forall (fun x => video_rank_lt lib x s) l2
  end.
Proof.
  unfold extract_buckets, audio_bucket, video_bucket.
  rewrite extract_fold_audio, extract_fold_video, !fold_bucket_step. cbn [fst snd].
  rewrite !lookup_empty. split.
  - pose proof (opt_sel_spec _ _ isAudioFormatMapBetter_trans isAudioFormatMapBetter_total None
                  (filter (fun fm => audio_key fm = Some k) (format_objects (formats_of rawInfo))))
      as Hs.
    destruct (opt_sel _ _ _) as [s|]; [|apply Hs].
    destruct Hs as (l1 & l2 & Heq & H1 & H2). exists l1, l2. split; [exact Heq|split].
    + eapply Forall_impl; [exact H1|]. intros x Hx. apply isAudioFormatMapBetter_true, Hx.
    + eapply Forall_impl; [exact H2|]. intros x Hx. apply isAudioFormatMapBetter_false, Hx.
  - pose proof (opt_sel_spec _ _ (isVideoFormatMapBetter_trans lib) (isVideoFormatMapBetter_total lib)
                  None (filter (fun fm => video_key fm = Some k) (format_objects (formats_of rawInfo))))
      as Hs.
    destruct (opt_sel _ _ _) as [s|]; [|apply Hs].
    destruct Hs as (l1 & l2 & Heq & H1 & H2). exists l1, l2. split; [exact Heq|split].
    + eapply Forall_impl; [exact H1|]. intros x Hx. apply isVideoFormatMapBetter_true, Hx.
    + eapply Forall_impl; [exact H2|]. intros x Hx. apply isVideoFormatMapBetter_false, Hx.
Qed.

(* ------------------------------------------------------------------ *)
(** ** The theorems at concrete inputs *)

Lemma StartDownload_idempotent_witness :
  StartDownload sample_lib (mkService ∅ []) sample_url sample_token 0 =
    (sample_start.1, (sample_start.2.1, None)) /\
  StartDownload sample_lib sample_start.1 sample_url sample_token 7 =
    (sample_start.1, (sample_start.2.1, None)).
Proof.
  assert (H : StartDownload sample_lib (mkService ∅ []) sample_url sample_token 0 =
              (sample_start.1, (sample_start.2.1, None))) by reflexivity.
  split; [exact H|].
  exact (proj1 (proj2 (proj2 (StartDownload_idempotent sample_lib _ _ _ _ 0 7 _ H)))).
Defined.

Lemma CancelDownload_contract_witness :
  all_cancellable sample_start.1 /\
  CancelDownload sample_start.1 "nosuchtask" 9 = (sample_start.1, Some "download task not found").
Proof.
  assert (H : all_cancellable sample_start.1)
    by exact (StartDownload_all_cancellable sample_lib _ _ _ _ all_cancellable_empty).
  split; [exact H|].
  apply (proj1 (CancelDownload_contract sample_start.1 "nosuchtask" 9 H)). reflexivity.
Defined.

Lemma CancelDownload_pending_witness :
  sample_start.1.(downloads) !! sample_start.2.1 = Some sample_task /\
  sample_task.(State) = "pending" /\
  CancelDownload sample_start.1 sample_start.2.1 9 = (sample_start.1, None).
Proof.
  assert (H1 : sample_start.1.(downloads) !! sample_start.2.1 = Some sample_task) by reflexivity.
  assert (H2 : sample_task.(State) = "pending") by reflexivity.
  split; [exact H1|split; [exact H2|]].
  exact (proj1 (CancelDownload_pending sample_start.1 sample_start.2.1 9 sample_task H1 H2)).
Defined.

Lemma cleanup_removes_exactly_witness :
  sample_start.1.(downloads) !! sample_start.2.1 = Some sample_task /\
  (cleanupCompletedTasks sample_now sample_start.1).(downloads) !! sample_start.2.1 = Some sample_task.
Proof.
  assert (H1 : sample_start.1.(downloads) !! sample_start.2.1 = Some sample_task) by reflexivity.
  split; [exact H1|].
  apply (proj2 (proj2 (cleanup_removes_exactly sample_now sample_start.1 sample_start.2.1 sample_task H1))).
  left. reflexivity.
Defined.

Lemma CheckUrl_spec_witness :
  sample_lib.(url_Parse) sample_url = Some sample_u /\
  CheckUrl sample_lib sample_url =
    (sample_lib.(URL_String) (set_Host (set_Scheme sample_u "https") "www.youtube.com"),
     Values_Get (sample_lib.(ParseQuery) sample_u.(RawQuery)) "v", None).
Proof.
  assert (H : sample_lib.(url_Parse) sample_url = Some sample_u) by reflexivity.
  split; [exact H|].
  pose proof (CheckUrl_spec sample_lib sample_url sample_u H) as Hs. cbv zeta in Hs.
  apply (proj1 Hs).
  split; [right; right; reflexivity|].
  split; [right; right; reflexivity|].
  split; [reflexivity|].
  vm_compute. discriminate.
Defined.

(** The task of [sample_start] whose download cannot start: "failed",
    with the zero end time it was created with. *)
Lemma runDownload_unstamped_failures_witness :
  FromHex sample_task.(ID) = ((FromHex sample_task.(ID)).1, None) /\
  (runDownload sample_lib sample_cfg env_start_fail 1 2 sample_task).(State) = "failed" /\
  (runDownload sample_lib sample_cfg env_start_fail 1 2 sample_task).(EndTime) = zero_time.
Proof.
  assert (H1 : FromHex sample_task.(ID) = ((FromHex sample_task.(ID)).1, None)) by reflexivity.
  assert (H2 : env_start_fail.(location_exists) = false) by reflexivity.
  split; [exact H1|].
  destruct (proj1 (runDownload_unstamped_failures sample_lib sample_cfg env_start_fail 1 2
                     sample_task _ H1 H2)) as [Hs He].
  { right; right. discriminate. }
  split; [exact Hs|]. rewrite He. reflexivity.
Defined.

(* ------------------------------------------------------------------ *)
(** ** Counterexamples *)

(** Claim C3 (counterexample): of two audio formats of one sample rate
    that tie on every compared field, the later one ("B") is kept, not the
    first seen; and of two formats at 128.9 and 128.1 kbit/s, read as 128
    both, the later one is kept too. *)
Lemma C3_tie_keeps_later :
  option_map (fun fm => getStringValue fm "format_id")
    ((extract_buckets sample_lib raw_tie).1 !! "44100") = Some "B" /\
  (extractOptimalFormats sample_lib raw_tie).1 = [mkAudioFormat "B" "m4a" 44100] /\
  (extractOptimalFormats sample_lib raw_fractional).1 = [mkAudioFormat "B" "m4a" 44100].
Proof. vm_compute. auto. Qed.


(** Claim C6 (counterexample): the format id "zz" is not a valid token,
    yet [StartDownload] on a valid URL returns no error and the task id of
    the audio artifact with sample rate 0 and an empty extension. *)
Lemma C6_bad_token_accepted :
  snd (ParseAudioFormatID "zz") <> None /\
  (StartDownload sample_lib (mkService ∅ []) sample_url "zz" 0).2 =
    (ToHex "abc/audio/0/abc.", None).
Proof. vm_compute. split; [discriminate|reflexivity]. Qed.

(** Claim C8 (counterexample): the task whose download could not start is
    "failed" with the zero end time; at [sample_now] more than ten minutes
    separate now from that end time, yet a cleanup pass keeps it. *)
Lemma C8_failed_zero_end_kept :
  let t := runDownload sample_lib sample_cfg env_start_fail 1 2 sample_task in
  let s := mkService {[ sample_start.2.1 := t ]} [] in
  t.(State) = "failed" /\
  (10 * Minute < time_Sub sample_now t.(EndTime))%Z /\
  (cleanupCompletedTasks sample_now s).(downloads) !! sample_start.2.1 = Some t.
Proof. vm_compute. auto. Qed.

(* ================================================================== *)
(** * Further properties of the code *)

(* ------------------------------------------------------------------ *)
(** ** Hex encoding *)

Lemma hex_char_lower_pair (c : ascii) (r : string) :
  all_lower_hex (String (hex_char (N_of_ascii c / 16)) (String (hex_char (N_of_ascii c mod 16)) r))
  = all_lower_hex r.
Proof. destruct c as [[] [] [] [] [] [] [] []]; reflexivity. Qed.

Lemma from_hex_char_spec (a : ascii) (x : N) :
  from_hex_char a = Some x -> (x < 16)%N /\ hex_char x = hex_lower_char a.
Proof.
  destruct a as [[] [] [] [] [] [] [] []]; cbn; intros H; try discriminate;
    injection H as <-; split; first [lia | reflexivity].
Qed.

Lemma hex_pair_spec (a b : ascii) :
  match hex_pair a b with
  | Some c => from_hex_char a <> None /\ from_hex_char b <> None /\
              hex_char (N_of_ascii c / 16) = hex_lower_char a /\
              hex_char (N_of_ascii c mod 16) = hex_lower_char b
  | None => from_hex_char a = None \/ from_hex_char b = None
  end.
Proof.
  unfold hex_pair.
  destruct (from_hex_char a) as [x|] eqn:Ha, (from_hex_char b) as [y|] eqn:Hb; auto.
  destruct (from_hex_char_spec a x Ha) as [Hx Hxa].
  destruct (from_hex_char_spec b y Hb) as [Hy Hyb].
  unfold ch. rewrite N_ascii_embedding by lia.
  replace ((x * 16 + y) / 16)%N with x by (apply N.div_unique with y; lia).
  replace ((x * 16 + y) mod 16)%N with y by (apply N.mod_unique with x; lia).
  repeat split; congruence.
Qed.

Lemma hex_decode_spec (n : nat) (s : string) :
  (String.length s <= n)%nat ->
  match hex_decode s with
  | Some d => Nat.even (String.length s) = true /\ all_hex s = true /\ ToHex d = hex_lower s
  | None => Nat.even (String.length s) = false \/ all_hex s = false
  end.
Proof.
  revert s. induction n as [|n IH]; intros s Hn.
  - destruct s; [cbn; repeat split|cbn in Hn; lia].
  - destruct s as [|a [|b r]]; [cbn; repeat split| |].
    + cbn. left. reflexivity.
    + cbn [hex_decode String.length all_hex hex_lower].
      assert (Hr : (String.length r <= n)%nat) by (cbn in Hn; lia).
      specialize (IH r Hr).
      pose proof (hex_pair_spec a b) as Hp.
      replace (Nat.even (S (S (String.length r)))) with (Nat.even (String.length r))
        by reflexivity.
      destruct (hex_pair a b) as [c|] eqn:Hab.
      * destruct Hp as (Ha & Hb & H1 & H2).
        destruct (from_hex_char a); [|congruence].
        destruct (from_hex_char b); [|congruence].
        destruct (hex_decode r) as [d|].
        -- destruct IH as (He & Hh & Ht). cbn [ToHex]. rewrite H1, H2, Ht. auto.
        -- exact IH.
      * right. destruct Hp as [Ha|Hb]; [rewrite Ha; reflexivity|].
        destruct (from_hex_char a); [rewrite Hb; reflexivity|reflexivity].
Qed.

(** X1: [ToHex] writes two lower-case hexadecimal digits per byte, and
    [FromHex] decodes its output back to the original text, without error. *)
Theorem ToHex_FromHex_roundtrip (s : string) :
  FromHex (ToHex s) = (s, None) /\
  String.length (ToHex s) = (2 * String.length s)%nat /\
  all_lower_hex (ToHex s) = true.
Proof.
  split; [apply FromHex_ToHex|].
  induction s as [|c s [IHl IHh]]; [split; reflexivity|].
  cbn [ToHex String.length]. rewrite hex_char_lower_pair, IHh.
  cbn [String.length] in *. split; [lia|reflexivity].
Qed.

(** X2: [FromHex s] succeeds exactly when [s] has an even length and
    only hexadecimal digits (of either case); the decoded text then
    re-encodes to [s] in lower case. Otherwise it returns the empty
    string with an error. *)
Theorem FromHex_spec (s : string) :
  match FromHex s with
  | (d, None) => Nat.even (String.length s) = true /\ all_hex s = true /\ ToHex d = hex_lower s
  | (d, Some _) => d = "" /\ (Nat.even (String.length s) = false \/ all_hex s = false)
  end.
Proof.
  unfold FromHex. pose proof (hex_decode_spec (String.length s) s (le_n _)) as H.
  destruct (hex_decode s); auto.
Qed.

(* ------------------------------------------------------------------ *)
(** ** Format ids of the wrong kind *)

Lemma parse_fields_kind (k k' rest : string) :
  no_us k = true -> String.eqb k k' = false ->
  match SplitUU (k +:+ "__" +:+ rest) with
  | [p0; _; _; _] => String.eqb p0 k'
  | _ => false
  end = false.
Proof.
  intros Hk Hne. rewrite SplitUU_sep by exact Hk.
  destruct (SplitUU rest) as [|x [|y [|z l]]]; try reflexivity.
  destruct l; [exact Hne|reflexivity].
Qed.

(** X3: decoding a token of the other kind always fails: an audio
    token is never accepted by [ParseVideoFormatID], nor a video token by
    [ParseAudioFormatID], whatever their fields. *)
Theorem format_id_kind_mismatch :
  (forall (ext : string) (asr : Z) (formatID : string),
     exists msg, (ParseVideoFormatID (buildAudioFormatID ext asr formatID)).2 = Some msg) /\
  (forall (ext resolution vFormatID aFormatID : string),
     exists msg, (ParseAudioFormatID (buildVideoFormatID ext resolution vFormatID aFormatID)).2
                 = Some msg).
Proof.
  split.
  - intros ext asr formatID. unfold ParseVideoFormatID, buildAudioFormatID.
    rewrite FromHex_ToHex.
    change ("a__" +:+ ext +:+ "__" +:+ fmt_int asr +:+ "__" +:+ formatID)
      with ("a" +:+ "__" +:+ (ext +:+ "__" +:+ fmt_int asr +:+ "__" +:+ formatID)).
    pose proof (parse_fields_kind "a" "v" (ext +:+ "__" +:+ fmt_int asr +:+ "__" +:+ formatID)
                  eq_refl eq_refl) as H.
    destruct (SplitUU _) as [|p0 [|p1 [|p2 [|p3 [|x l]]]]]; cbn; eauto.
    rewrite H. eauto.
  - intros ext resolution vFormatID aFormatID. unfold ParseAudioFormatID, buildVideoFormatID.
    rewrite FromHex_ToHex.
    set (rest := ext +:+ "__" +:+ resolution +:+ "__" +:+ vFormatID +:+
                   (if String.eqb aFormatID "" then aFormatID else "+" +:+ aFormatID)).
    change ("v__" +:+ rest) with ("v" +:+ "__" +:+ rest).
    pose proof (parse_fields_kind "v" "a" rest eq_refl eq_refl) as H.
    destruct (SplitUU _) as [|p0 [|p1 [|p2 [|p3 [|x l]]]]]; cbn; eauto.
    rewrite H. eauto.
Qed.

(* ------------------------------------------------------------------ *)
(** ** [getResolution] and the buckets of [extractOptimalFormats] *)

Lemma res_match_at_nonempty (s m : string) : res_match_at s = Some m -> m <> "".
Proof.
  unfold res_match_at. destruct (digit_run s) as [d1 r1].
  destruct (String.eqb d1 "") eqn:E; [discriminate|].
  apply String.eqb_neq in E.
  destruct r1 as [|c r2]; [discriminate|].
  destruct (Ascii.eqb c "x"); [destruct (digit_run r2) as [d2 r3];
                                destruct (String.eqb d2 "")|destruct (Ascii.eqb c "p")];
    intros H; try discriminate; injection H as <-; intros Hc;
    (destruct d1; [apply E; reflexivity|discriminate Hc]).
Qed.

Lemma res_find_nonempty (s m : string) : res_find s = Some m -> m <> "".
Proof.
  induction s as [|c s IH]; cbn [res_find].
  - destruct (res_match_at "") eqn:H; [intros [= <-]; eapply res_match_at_nonempty; eauto|discriminate].
  - destruct (res_match_at (String c s)) eqn:H;
      [intros [= <-]; eapply res_match_at_nonempty; eauto|exact IH].
Qed.

Lemma getResolution_ne (data : fmap) : getResolution data <> "".
Proof.
  assert (Hx : forall a b : string, a +:+ "x" +:+ b <> "") by (intros [|] b; discriminate).
  unfold getResolution.
  repeat case_match; try discriminate; try apply Hx; try (eapply res_find_nonempty; eassumption).
  all: match goal with H : negb (String.eqb _ "") = true |- _ =>
         apply negb_true_iff, String.eqb_neq in H; exact H end.
Qed.

(** X4: [getResolution] never returns the empty string (a [resolution]
    field is used only when non-empty, and every other outcome is a
    non-empty text), so the ["unknown"] substitution for an empty
    resolution in [extractOptimalFormats] never applies. *)
Theorem getResolution_nonempty (data : fmap) :
  getResolution data <> "" /\
  (if String.eqb (getResolution data) "" then "unknown" else getResolution data)
  = getResolution data.
Proof.
  split; [apply getResolution_ne|].
  destruct (String.eqb (getResolution data) "") eqn:E; [|reflexivity].
  apply String.eqb_eq in E. exfalso. exact (getResolution_ne data E).
Qed.

Lemma sel_in {A} (better : A -> A -> bool) (c : A) (l : list A) : In (sel better c l) (c :: l).
Proof.
  revert c. induction l as [|x l IH]; intros c; cbn [sel]; [left; reflexivity|].
  destruct (better x c).
  - specialize (IH x). destruct IH as [H|H]; [right; left; exact H|right; right; exact H].
  - specialize (IH c). destruct IH as [H|H]; [left; exact H|right; right; exact H].
Qed.

Lemma opt_sel_None_in {A} (better : A -> A -> bool) (l : list A) (s : A) :
  opt_sel better None l = Some s -> In s l.
Proof. destruct l as [|x l]; cbn; [discriminate|]. intros [= <-]. apply sel_in. Qed.

Lemma filter_In_key (key : fmap -> option string) (k : string) (l : list fmap) (s : fmap) :
  In s (filter (fun fm => key fm = Some k) l) -> key s = Some k.
Proof.
  induction l as [|x l IH]; [cbn; contradiction|].
  destruct (decide (key x = Some k)) as [Hk|Hk].
  - rewrite filter_cons_True by exact Hk. intros [<-|H]; [exact Hk|auto].
  - rewrite filter_cons_False by exact Hk. exact IH.
Qed.

Lemma audio_bucket_key (lib : GoLib) (rawInfo : fmap) (k : string) (s : fmap) :
  (extract_buckets lib rawInfo).1 !! k = Some s -> audio_key s = Some k.
Proof.
  unfold extract_buckets. rewrite extract_fold_audio, fold_bucket_step. cbn [fst].
  rewrite lookup_empty. intros H. eapply filter_In_key, opt_sel_None_in, H.
Qed.

Lemma video_bucket_key (lib : GoLib) (rawInfo : fmap) (k : string) (s : fmap) :
  (extract_buckets lib rawInfo).2 !! k = Some s -> video_key s = Some k.
Proof.
  unfold extract_buckets. rewrite extract_fold_video, fold_bucket_step. cbn [snd].
  rewrite lookup_empty. intros H. eapply filter_In_key, opt_sel_None_in, H.
Qed.

Lemma audio_key_spec (s : fmap) (k : string) :
  audio_key s = Some k -> k = fmt_int (getInt64Value s "asr") /\ getInt64Value s "asr" <> 0%Z.
Proof.
  unfold audio_key. intros Hs. repeat case_match; try discriminate.
  injection Hs as <-. split; [reflexivity|]. intros E. rewrite E in *. discriminate.
Qed.

Lemma video_key_spec (s : fmap) (k : string) : video_key s = Some k -> k = getResolution s.
Proof.
  unfold video_key. intros Hs. repeat case_match; try discriminate.
  all: injection Hs as <-.
  all: first [ reflexivity | congruence
             | exfalso; apply (getResolution_ne s); apply String.eqb_eq; assumption ].
Qed.

Lemma NoDup_map_keyed {V B} (l : list (string * V)) (g : string * V -> B) (h : B -> string) :
  NoDup (map fst l) -> (forall kv, In kv l -> kv.1 = h (g kv)) -> NoDup (map g l).
Proof.
  induction l as [|kv l IH]; intros Hnd Hk; cbn; [constructor|].
  inversion Hnd as [|? ? Hnin Hnd']; subst. constructor.
  - intros Hin. apply list_elem_of_In, in_map_iff in Hin as (kv' & Hg & Hin').
    apply Hnin. apply list_elem_of_In, in_map_iff. exists kv'. split; [|exact Hin'].
    rewrite (Hk kv' (or_intror Hin')), (Hk kv (or_introl eq_refl)), Hg. reflexivity.
  - apply IH; [exact Hnd'|]. intros kv' Hin. apply Hk. right. exact Hin.
Qed.

Lemma in_map_to_list {V} (m : gmap string V) (kv : string * V) :
  In kv (map_to_list m) -> m !! kv.1 = Some kv.2.
Proof.
  destruct kv as [k v]. intros H. apply elem_of_map_to_list. apply list_elem_of_In. exact H.
Qed.

(** X5: [extractOptimalFormats] returns at most one audio format per
    sample rate, none with the rate 0, and at most one video format per
    resolution, none with an empty resolution. *)
Theorem extractOptimalFormats_distinct (lib : GoLib) (rawInfo : fmap) :
  let '(afs, vfs) := extractOptimalFormats lib rawInfo in
  NoDup (map Asr afs) /\ Forall (fun af => af.(Asr) <> 0%Z) afs /\
  NoDup (map Resolution vfs) /\ Forall (fun vf => vf.(Resolution) <> "") vfs.
Proof.
  unfold extractOptimalFormats.
  pose proof (audio_bucket_key lib rawInfo) as Ha.
  pose proof (video_bucket_key lib rawInfo) as Hv.
  destruct (extract_buckets lib rawInfo) as [audioByAsr videoByResolution]. cbn [fst snd] in *.
  rewrite !map_map. cbn [Asr Resolution].
  split; [|split; [|split]].
  - apply (NoDup_map_keyed _ _ fmt_int); [apply NoDup_fst_map_to_list|].
    intros kv Hin. apply in_map_to_list, Ha, audio_key_spec in Hin. apply Hin.
  - apply Forall_forall. intros af Hin. apply list_elem_of_In, in_map_iff in Hin as (kv & <- & Hin).
    apply in_map_to_list, Ha, audio_key_spec in Hin. apply Hin.
  - apply (NoDup_map_keyed _ _ id); [apply NoDup_fst_map_to_list|].
    intros kv Hin. apply in_map_to_list, Hv, video_key_spec in Hin. exact Hin.
  - apply Forall_forall. intros vf Hin. apply list_elem_of_In, in_map_iff in Hin as (kv & <- & Hin).
    apply getResolution_ne.
Qed.

(* ------------------------------------------------------------------ *)
(** ** Task lifecycle *)

Section Lifecycle.

Variable lib : GoLib.

Lemma runDownload_start_frame (cfg : Config) (env : RunEnv) (now : Z) (t : DownloadTask) :
  let t' := (runDownload_start cfg env now t).1 in
  t'.(ID) = t.(ID) /\ t'.(TURL) = t.(TURL) /\ t'.(Format) = t.(Format) /\
  t'.(StartTime) = t.(StartTime).
Proof.
  unfold runDownload_start. repeat case_match; cbn; repeat split.
Qed.

Lemma runDownload_finish_frame (cfg : Config) (env : RunEnv) (now : Z) (t : DownloadTask) :
  let t' := runDownload_finish lib cfg env now t in
  t'.(ID) = t.(ID) /\ t'.(TURL) = t.(TURL) /\ t'.(Format) = t.(Format) /\
  t'.(StartTime) = t.(StartTime).
Proof.
  unfold runDownload_finish. repeat case_match; cbn; repeat split.
Qed.

Lemma s3Location_of_frame (t t' : DownloadTask) :
  t'.(TURL) = t.(TURL) -> t'.(Format) = t.(Format) -> s3Location_of lib t' = s3Location_of lib t.
Proof. intros Hu Hf. unfold s3Location_of. rewrite Hu, Hf. reflexivity. Qed.

Lemma getTaskId_location (url formatID taskID : string) (now : Z) :
  getTaskId lib url formatID = (taskID, None) ->
  FromHex taskID = (s3Location_of lib (new_task taskID url formatID now), None).
Proof.
  unfold getTaskId, s3Location_of. cbn [TURL Format new_task].
  destruct (CheckUrl lib url) as [[u videoID] [err|]]; [discriminate|].
  intros H. injection H as <-. apply FromHex_ToHex.
Qed.

(** X6: [runDownload] always ends with the task "completed" (progress
    100, speed "0 B/s", ETA "00:00") or "failed" with a non-empty error
    message; it never changes the task's id, URL, format id or start
    time. *)
Theorem runDownload_outcome (cfg : Config) (env : RunEnv) (now1 now2 : Z) (t : DownloadTask) :
  let t' := runDownload lib cfg env now1 now2 t in
  t'.(ID) = t.(ID) /\ t'.(TURL) = t.(TURL) /\ t'.(Format) = t.(Format) /\
  t'.(StartTime) = t.(StartTime) /\
  ((t'.(State) = "completed" /\ t'.(Progress) = 100%Q /\ t'.(Speed) = "0 B/s" /\
    t'.(ETA) = "00:00") \/
   (t'.(State) = "failed" /\ t'.(Error) <> "")).
Proof.
  unfold runDownload, runDownload_start, runDownload_finish, FromHex.
  repeat case_match; cbn in *; simplify_eq; repeat split;
    first [ left; repeat split; reflexivity | right; split; [reflexivity|discriminate] ].
Qed.

(** X7: a download cancelled while it runs stays cancelled: once
    [CancelDownload] has marked a running task, the rest of [runDownload]
    leaves it "failed" with the error "Download cancelled by user" and
    stamps its end time, whatever [cmd.Wait] and the file move report. *)
Theorem cancel_then_finish (cfg : Config) (env : RunEnv) (s : Service) (taskID : string)
        (now now2 : Z) (t : DownloadTask) :
  s.(downloads) !! taskID = Some t -> t.(State) = "downloading" -> t.(HasCancel) = true ->
  exists t', (CancelDownload s taskID now).1.(downloads) !! taskID = Some t' /\
    (runDownload_finish lib cfg env now2 t').(State) = "failed" /\
    (runDownload_finish lib cfg env now2 t').(Error) = "Download cancelled by user" /\
    (runDownload_finish lib cfg env now2 t').(EndTime) = now2.
Proof.
  intros Ht Hs Hc. unfold CancelDownload. rewrite Ht, Hs, Hc. cbn [fst downloads andb String.eqb].
  eexists. split; [apply lookup_insert_eq|].
  unfold runDownload_finish. destruct (wait_err env); cbn; repeat split.
Qed.

(** X8: a task whose id decodes to the artifact path of its URL and
    format id (as every task [StartDownload] registers) and that
    [runDownload] completes gets the download URL of that path, whether
    the file was already present or was downloaded and moved there. *)
Theorem runDownload_completed_url (cfg : Config) (env : RunEnv) (now1 now2 : Z)
        (t : DownloadTask) :
  FromHex t.(ID) = (s3Location_of lib t, None) ->
  (runDownload lib cfg env now1 now2 t).(State) = "completed" ->
  (runDownload lib cfg env now1 now2 t).(DownloadUrl) = getDownloadUrl cfg (s3Location_of lib t).
Proof.
  intros Hid. unfold runDownload, runDownload_start. rewrite Hid.
  destruct (location_exists env); [intros _; reflexivity|].
  destruct (stdout_pipe_err env), (stderr_pipe_err env), (start_err env);
    cbn; try discriminate.
  unfold runDownload_finish. destruct (wait_err env); cbn; [case_match; discriminate|].
  destruct (move_err env); cbn; [discriminate|]. intros _. reflexivity.
Qed.

(** X9: every task of the registry is filed under its own id, and that
    id decodes to the artifact path of the task's URL and format id; this
    holds initially (no task) and [StartDownload], [CancelDownload], the
    eviction pass and both halves of [runDownload] keep it. *)
Theorem ids_located_preserved (cfg : Config) (env : RunEnv) (s : Service) :
  ids_located lib (mkService ∅ []) /\
  (ids_located lib s ->
   (forall url formatID now, ids_located lib (StartDownload lib s url formatID now).1) /\
   (forall taskID now, ids_located lib (CancelDownload s taskID now).1) /\
   (forall now, ids_located lib (cleanupCompletedTasks now s)) /\
   (forall taskID t now, s.(downloads) !! taskID = Some t ->
      ids_located lib (mkService (<[taskID := (runDownload_start cfg env now t).1]> s.(downloads))
                                 s.(spawned)) /\
      ids_located lib (mkService (<[taskID := runDownload_finish lib cfg env now t]> s.(downloads))
                                 s.(spawned)))).
Proof.
  split; [intros id t H; cbn in H; rewrite lookup_empty in H; discriminate|].
  intros Hs. split; [|split; [|split]].
  - intros url formatID now. unfold StartDownload.
    destruct (getTaskId lib url formatID) as [id [err|]] eqn:Hid; [exact Hs|].
    destruct (s.(downloads) !! id) eqn:Ht; [exact Hs|]. cbn [fst downloads].
    intros id' t' H. cbn [downloads] in H. destruct (decide (id' = id)) as [->|Hne].
    + rewrite lookup_insert_eq in H. injection H as <-. split; [reflexivity|].
      apply getTaskId_location. exact Hid.
    + rewrite lookup_insert_ne in H by congruence. apply Hs, H.
  - intros taskID now. unfold CancelDownload.
    destruct (s.(downloads) !! taskID) as [t|] eqn:Ht; [|exact Hs].
    destruct (_ && _); [|exact Hs]. cbn [fst downloads].
    intros id' t' H. cbn [downloads] in H. destruct (decide (id' = taskID)) as [->|Hne].
    + rewrite lookup_insert_eq in H. injection H as <-. apply (Hs _ _ Ht).
    + rewrite lookup_insert_ne in H by congruence. apply Hs, H.
  - intros now id t H. cbn [cleanupCompletedTasks downloads] in H. apply map_lookup_filter_Some in H as [H _]. apply Hs, H.
  - intros taskID t now Ht. split.
    + intros id' t' H. cbn [downloads] in H. destruct (decide (id' = taskID)) as [->|Hne].
      * rewrite lookup_insert_eq in H. injection H as <-.
        destruct (runDownload_start_frame cfg env now t) as (H1 & H2 & H3 & _).
        destruct (Hs _ _ Ht) as [Hi Hl]. rewrite H1, (s3Location_of_frame _ _ H2 H3).
        split; assumption.
      * rewrite lookup_insert_ne in H by congruence. apply Hs, H.
    + intros id' t' H. cbn [downloads] in H. destruct (decide (id' = taskID)) as [->|Hne].
      * rewrite lookup_insert_eq in H. injection H as <-.
        destruct (runDownload_finish_frame cfg env now t) as (H1 & H2 & H3 & _).
        destruct (Hs _ _ Ht) as [Hi Hl]. rewrite H1, (s3Location_of_frame _ _ H2 H3).
        split; assumption.
      * rewrite lookup_insert_ne in H by congruence. apply Hs, H.
Qed.

(** X10: right after [StartDownload] returns an id without error,
    [GetDownloadStatus] on that id finds the task: the one already
    registered under it, or else the new pending task. When
    [StartDownload] fails, the registry is unchanged. *)
Theorem StartDownload_then_status (s : Service) (url formatID : string) (now : Z) :
  match StartDownload lib s url formatID now with
  | (s', (taskID, None)) =>
      GetDownloadStatus s' taskID =
        (Some (match s.(downloads) !! taskID with
               | Some t => t
               | None => new_task taskID url formatID now
               end), None)
  | (s', (_, Some _)) => s' = s
  end.
Proof.
  unfold StartDownload, GetDownloadStatus.
  destruct (getTaskId lib url formatID) as [id [err|]]; [reflexivity|].
  destruct (s.(downloads) !! id) eqn:Ht; cbn [fst snd downloads]; rewrite ?Ht; [reflexivity|].
  rewrite lookup_insert_eq. reflexivity.
Qed.

End Lifecycle.

(* ------------------------------------------------------------------ *)
(** ** Task counts *)

Ltac pair_lia := repeat match goal with |- (_, _) = (_, _) => f_equal end; lia.

Lemma count_step_eq (p d c f : nat) (kv : string * DownloadTask) :
  count_step (p, d, c, f) kv =
  (p + (if String.eqb kv.2.(State) "pending" then 1 else 0),
   d + (if String.eqb kv.2.(State) "downloading" then 1 else 0),
   c + (if String.eqb kv.2.(State) "completed" then 1 else 0),
   f + (if String.eqb kv.2.(State) "failed" then 1 else 0))%nat.
Proof.
  unfold count_step. cbv zeta. generalize (State kv.2) as st. intros st.
  destruct (String.eqb_spec st "pending") as [->|N1]; [cbn; pair_lia|].
  destruct (String.eqb_spec st "downloading") as [->|N2]; [cbn; pair_lia|].
  destruct (String.eqb_spec st "completed") as [->|N3]; [cbn; pair_lia|].
  destruct (String.eqb_spec st "failed") as [->|N4]; cbn; pair_lia.
Qed.

Lemma count_cons (st : string) (kv : string * DownloadTask) (l : list (string * DownloadTask)) :
  length (filter (fun kv : string * DownloadTask => kv.2.(State) = st) (kv :: l)) =
  ((if String.eqb kv.2.(State) st then 1 else 0) +
   length (filter (fun kv : string * DownloadTask => kv.2.(State) = st) l))%nat.
Proof.
  rewrite filter_cons. destruct (String.eqb_spec kv.2.(State) st) as [E|E];
    (destruct (decide _) as [D|D]; [|]); cbn; congruence.
Qed.

Lemma count_perm (st : string) (l1 l2 : list (string * DownloadTask)) :
  l1 ≡ₚ l2 ->
  length (filter (fun kv : string * DownloadTask => kv.2.(State) = st) l1) =
  length (filter (fun kv : string * DownloadTask => kv.2.(State) = st) l2).
Proof. intros Hp. apply Permutation_length. rewrite Hp. reflexivity. Qed.

Lemma count_fold (l : list (string * DownloadTask)) (p d c f : nat) :
  fold_left count_step l (p, d, c, f) =
  (p + length (filter (fun kv : string * DownloadTask => kv.2.(State) = "pending") l),
   d + length (filter (fun kv : string * DownloadTask => kv.2.(State) = "downloading") l),
   c + length (filter (fun kv : string * DownloadTask => kv.2.(State) = "completed") l),
   f + length (filter (fun kv : string * DownloadTask => kv.2.(State) = "failed") l))%nat.
Proof.
  revert p d c f. induction l as [|kv l IH]; intros p d c f; [cbn; pair_lia|].
  cbn [fold_left]. rewrite count_step_eq, IH, !count_cons. pair_lia.
Qed.

Lemma GetActiveTasksCount_eq (s : Service) :
  GetActiveTasksCount s = (size s.(downloads), tasks_in "pending" s, tasks_in "downloading" s,
                           tasks_in "completed" s, tasks_in "failed" s).
Proof. unfold GetActiveTasksCount, tasks_in. rewrite count_fold. reflexivity. Qed.

Lemma count_sum (l : list (string * DownloadTask)) :
  let n st := length (filter (fun kv : string * DownloadTask => kv.2.(State) = st) l) in
  (n "pending" + n "downloading" + n "completed" + n "failed" <= length l)%nat /\
  ((n "pending" + n "downloading" + n "completed" + n "failed" = length l)%nat <->
   Forall (fun kv : string * DownloadTask =>
             kv.2.(State) = "pending" \/ kv.2.(State) = "downloading" \/
             kv.2.(State) = "completed" \/ kv.2.(State) = "failed") l).
Proof.
  cbv zeta. induction l as [|kv l [IHle IHeq]].
  - cbn. split; [lia|]. split; intros; [constructor|reflexivity].
  - rewrite !count_cons, Forall_cons. cbn [length]. set (st := kv.2.(State)).
    destruct (String.eqb_spec st "pending") as [->|N1]; cbn;
      [split; [lia|rewrite <- IHeq; split; [intros; split; [left; reflexivity|lia]|lia]]|].
    destruct (String.eqb_spec st "downloading") as [->|N2]; cbn;
      [split; [lia|rewrite <- IHeq; split; [intros; split; [right; left; reflexivity|lia]|lia]]|].
    destruct (String.eqb_spec st "completed") as [->|N3]; cbn;
      [split; [lia|rewrite <- IHeq; split; [intros; split; [right; right; left; reflexivity|lia]|lia]]|].
    destruct (String.eqb_spec st "failed") as [->|N4]; cbn;
      [split; [lia|rewrite <- IHeq; split; [intros; split; [right; right; right; reflexivity|lia]|lia]]|].
    split; [lia|]. split; [lia|]. intros [[H|[H|[H|H]]] _]; contradiction.
Qed.

Lemma states_known_list (s : Service) :
  states_known s <->
  Forall (fun kv : string * DownloadTask =>
            kv.2.(State) = "pending" \/ kv.2.(State) = "downloading" \/
            kv.2.(State) = "completed" \/ kv.2.(State) = "failed") (map_to_list s.(downloads)).
Proof.
  rewrite Forall_forall. split.
  - intros H [id t] Hin. apply elem_of_map_to_list in Hin. exact (H id t Hin).
  - intros H id t Hin. apply elem_of_map_to_list in Hin. exact (H (id, t) Hin).
Qed.

(** X11: [GetActiveTasksCount] returns the number of registered tasks
    and, for each of the four states, the number of tasks in that state;
    the four counts add up to at most the total, and to exactly the total
    when every task is in one of the four states. *)
Theorem GetActiveTasksCount_spec (s : Service) :
  GetActiveTasksCount s = (size s.(downloads), tasks_in "pending" s, tasks_in "downloading" s,
                           tasks_in "completed" s, tasks_in "failed" s) /\
  (tasks_in "pending" s + tasks_in "downloading" s + tasks_in "completed" s +
   tasks_in "failed" s <= size s.(downloads))%nat /\
  ((tasks_in "pending" s + tasks_in "downloading" s + tasks_in "completed" s +
    tasks_in "failed" s = size s.(downloads))%nat <-> states_known s).
Proof.
  split; [apply GetActiveTasksCount_eq|].
  rewrite states_known_list, <- length_map_to_list. unfold tasks_in.
  apply (count_sum (map_to_list s.(downloads))).
Qed.

(** X12: a [StartDownload] that registers a new task adds one to the
    total and one to the pending count of [GetActiveTasksCount]; one that
    finds the id already registered, or fails, changes no count. *)
Theorem StartDownload_counts (lib : GoLib) (s : Service) (url formatID : string) (now : Z) :
  match StartDownload lib s url formatID now with
  | (s', (taskID, None)) =>
      GetActiveTasksCount s' =
        match s.(downloads) !! taskID with
        | Some _ => GetActiveTasksCount s
        | None =>
            let '(total, pending, downloading, completed, failed) := GetActiveTasksCount s in
            (S total, S pending, downloading, completed, failed)
        end
  | (s', (_, Some _)) => GetActiveTasksCount s' = GetActiveTasksCount s
  end.
Proof.
  unfold StartDownload. destruct (getTaskId lib url formatID) as [id [err|]]; [reflexivity|].
  destruct (s.(downloads) !! id) eqn:Ht; cbn [fst snd]; rewrite ?Ht; [reflexivity|].
  rewrite !GetActiveTasksCount_eq. unfold tasks_in. cbn [fst downloads].
  rewrite map_size_insert_None by exact Ht.
  rewrite !(count_perm _ _ _ (map_to_list_insert _ _ (new_task id url formatID now) Ht)).
  rewrite !count_cons. reflexivity.
Qed.

(** X13: a [CancelDownload] that cancels a running task moves it from
    the downloading count to the failed count of [GetActiveTasksCount];
    any other call changes no count. *)
Theorem CancelDownload_counts (s : Service) (taskID : string) (now : Z) :
  GetActiveTasksCount (CancelDownload s taskID now).1 =
  match s.(downloads) !! taskID with
  | Some t =>
      if String.eqb t.(State) "downloading" && t.(HasCancel) then
        let '(total, pending, downloading, completed, failed) := GetActiveTasksCount s in
        (total, pending, downloading - 1, completed, S failed)%nat
      else GetActiveTasksCount s
  | None => GetActiveTasksCount s
  end.
Proof.
  unfold CancelDownload. destruct (s.(downloads) !! taskID) as [t|] eqn:Ht; [|reflexivity].
  destruct (String.eqb_spec t.(State) "downloading") as [Hd|Hd]; cbn [andb]; [|reflexivity].
  destruct (HasCancel t); [|reflexivity]. cbn [fst].
  rewrite !GetActiveTasksCount_eq. unfold tasks_in. cbn [downloads].
  rewrite map_size_insert_Some by (rewrite Ht; eauto).
  set (t' := with_end (with_state (with_cancelled t) "failed" "Download cancelled by user") now).
  assert (P1 : map_to_list (<[taskID := t']> s.(downloads)) ≡ₚ
               (taskID, t') :: map_to_list (delete taskID s.(downloads))).
  { rewrite <- insert_delete_eq. apply map_to_list_insert, lookup_delete_eq. }
  assert (P2 : map_to_list s.(downloads) ≡ₚ (taskID, t) :: map_to_list (delete taskID s.(downloads))).
  { symmetry. apply map_to_list_delete, Ht. }
  rewrite !(count_perm _ _ _ P1), !(count_perm _ _ _ P2), !count_cons.
  cbn [snd]. rewrite Hd. subst t'. cbn. pair_lia.
Qed.

Lemma runDownload_start_known (cfg : Config) (env : RunEnv) (now : Z) (t : DownloadTask) :
  let st := (runDownload_start cfg env now t).1.(State) in
  st = "pending" \/ st = "downloading" \/ st = "completed" \/ st = "failed".
Proof. unfold runDownload_start. repeat case_match; cbn; auto. Qed.

Lemma runDownload_finish_known (lib : GoLib) (cfg : Config) (env : RunEnv) (now : Z)
      (t : DownloadTask) :
  let st := (runDownload_finish lib cfg env now t).(State) in
  st = "pending" \/ st = "downloading" \/ st = "completed" \/ st = "failed".
Proof.
  unfold runDownload_finish. repeat case_match; cbn; auto.
  match goal with H : negb _ = false |- _ => apply negb_false_iff, String.eqb_eq in H end. auto.
Qed.

Lemma states_known_insert (s : Service) (taskID : string) (t : DownloadTask) :
  states_known s ->
  (t.(State) = "pending" \/ t.(State) = "downloading" \/
   t.(State) = "completed" \/ t.(State) = "failed") ->
  states_known (mkService (<[taskID := t]> s.(downloads)) s.(spawned)).
Proof.
  intros Hs Ht id t' H. cbn [downloads] in H. destruct (decide (id = taskID)) as [->|Hne].
  - rewrite lookup_insert_eq in H. injection H as <-. exact Ht.
  - rewrite lookup_insert_ne in H by congruence. exact (Hs _ _ H).
Qed.

(** X14: every registered task is in one of the states "pending",
    "downloading", "completed" and "failed": this holds initially (no
    task) and [StartDownload], [CancelDownload], the eviction pass and
    both halves of [runDownload] keep it; so the four counts of
    [GetActiveTasksCount] always add up to the total. *)
Theorem states_known_preserved (lib : GoLib) (cfg : Config) (env : RunEnv) (s : Service) :
  states_known (mkService ∅ []) /\
  (states_known s ->
   (forall url formatID now, states_known (StartDownload lib s url formatID now).1) /\
   (forall taskID now, states_known (CancelDownload s taskID now).1) /\
   (forall now, states_known (cleanupCompletedTasks now s)) /\
   (forall taskID t now,
      states_known (mkService (<[taskID := (runDownload_start cfg env now t).1]> s.(downloads))
                              s.(spawned)) /\
      states_known (mkService (<[taskID := runDownload_finish lib cfg env now t]> s.(downloads))
                              s.(spawned)))).
Proof.
  split; [intros id t H; cbn in H; rewrite lookup_empty in H; discriminate|].
  intros Hs. split; [|split; [|split]].
  - intros url formatID now. unfold StartDownload.
    destruct (getTaskId lib url formatID) as [id [err|]]; [exact Hs|].
    destruct (s.(downloads) !! id); [exact Hs|].
    apply states_known_insert; [exact Hs|]. left. reflexivity.
  - intros taskID now. unfold CancelDownload.
    destruct (s.(downloads) !! taskID) as [t|]; [|exact Hs].
    destruct (_ && _); [|exact Hs].
    apply states_known_insert; [exact Hs|]. cbn. auto.
  - intros now id t H. cbn [cleanupCompletedTasks downloads] in H.
    apply map_lookup_filter_Some in H as [H _]. exact (Hs _ _ H).
  - intros taskID t now. split; apply states_known_insert; try exact Hs.
    + apply runDownload_start_known.
    + apply runDownload_finish_known.
Qed.

(* ------------------------------------------------------------------ *)
(** ** The format groups of [GetVideoInfo] *)

Lemma Forall2_map_l {X Y Z} (f : X -> Y) (P : Y -> Z -> Prop) (l1 : list X) (l2 : list Z) :
  Forall2 (fun x z => P (f x) z) l1 l2 -> Forall2 P (map f l1) l2.
Proof. induction 1; constructor; auto. Qed.

Lemma Forall2_diag {X} (P : X -> X -> Prop) (l : list X) :
  Forall (fun x => P x x) l -> Forall2 P l l.
Proof. induction 1; constructor; auto. Qed.

(** X15: every group [GetVideoInfo] lists under [Audio] is named after
    one configured audio extension and holds one format per optimal audio
    format, in order; each of its format ids is a token that
    [ParseAudioFormatID] decodes, without error, to the group's
    extension, the format's sample rate and its source format id (when
    the extensions and source ids contain no ['_'] and the rates are
    64-bit integers). *)
Theorem audio_groups_tokens (audioExts : list string) (afs : list AudioFormat) :
  Forall (fun e => no_us e = true) audioExts ->
  Forall (fun af => no_us af.(AF_FormatID) = true /\ int64_range af.(Asr)) afs ->
  forall g, In g (audio_groups audioExts afs) ->
    In g.(AG_Ext) audioExts /\
    Forall2 (fun f af =>
               f.(AF_Ext) = g.(AG_Ext) /\ f.(Asr) = af.(Asr) /\
               ParseAudioFormatID f.(AF_FormatID) = (g.(AG_Ext), af.(Asr), af.(AF_FormatID), None))
            g.(AG_Formats) afs.
Proof.
  intros He Ha g Hg. unfold audio_groups in Hg. apply in_flat_map in Hg as (e & Hin & Hg).
  destruct (0 <? length _)%nat; [|contradiction].
  destruct Hg as [<-|[]]. cbn [AG_Ext AG_Formats]. split; [exact Hin|].
  apply Forall2_map_l, Forall2_diag. cbn [AF_Ext Asr AF_FormatID].
  rewrite Forall_forall in He. specialize (He e (proj2 (list_elem_of_In _ _) Hin)).
  eapply Forall_impl; [exact Ha|]. intros af [Hf Hr].
  split; [reflexivity|]. split; [reflexivity|].
  apply ParseAudioFormatID_build; assumption.
Qed.

(** X16: every group [GetVideoInfo] lists under [Video] is named after
    one configured video extension and holds one format per optimal video
    format, in order; each of its format ids is a token that
    [ParseVideoFormatID] decodes, without error, to the group's
    extension, the format's resolution and the selector of its source id
    paired with the given audio id (when no field contains ['_']). *)
Theorem video_groups_tokens (videoExts : list string) (vfs : list VideoFormat)
        (maxAFormatId : string) :
  Forall (fun e => no_us e = true) videoExts ->
  Forall (fun vf => no_us vf.(Resolution) = true /\ no_us vf.(VF_FormatID) = true) vfs ->
  no_us maxAFormatId = true ->
  forall g, In g (video_groups videoExts vfs maxAFormatId) ->
    In g.(VG_Ext) videoExts /\
    Forall2 (fun f vf =>
               f.(VF_Ext) = g.(VG_Ext) /\ f.(Resolution) = vf.(Resolution) /\
               ParseVideoFormatID f.(VF_FormatID) =
                 (g.(VG_Ext), vf.(Resolution),
                  vf.(VF_FormatID) +:+
                    (if String.eqb maxAFormatId "" then "" else "+" +:+ maxAFormatId), None))
            g.(VG_Formats) vfs.
Proof.
  intros He Hv Ha g Hg. unfold video_groups in Hg. apply in_flat_map in Hg as (e & Hin & Hg).
  destruct (0 <? length _)%nat; [|contradiction].
  destruct Hg as [<-|[]]. cbn [VG_Ext VG_Formats]. split; [exact Hin|].
  apply Forall2_map_l, Forall2_diag. cbn [VF_Ext Resolution VF_FormatID].
  rewrite Forall_forall in He. specialize (He e (proj2 (list_elem_of_In _ _) Hin)).
  eapply Forall_impl; [exact Hv|]. intros vf [Hr Hf].
  split; [reflexivity|]. split; [reflexivity|].
  apply ParseVideoFormatID_build; assumption.
Qed.

Lemma max_audio_inner (l : list AudioFormat) (m0 : Z) (id0 : string) :
  let '(m, id) :=
    fold_left (fun '(maxAsr, maxAFormatId) (af : AudioFormat) =>
      if (maxAsr <? af.(Asr))%Z then (af.(Asr), af.(AF_FormatID)) else (maxAsr, maxAFormatId))
      l (m0, id0) in
  (Forall (fun af => (af.(Asr) <= m0)%Z) l /\ m = m0 /\ id = id0) \/
  (exists l1 af l2, l = (l1 ++ af :: l2)%list /\ (m0 < af.(Asr))%Z /\
     m = af.(Asr) /\ id = af.(AF_FormatID) /\
     Forall (fun x => (x.(Asr) < m)%Z) l1 /\ Forall (fun x => (x.(Asr) <= m)%Z) l2).
Proof.
  revert m0 id0. induction l as [|x l IH]; intros m0 id0; cbn [fold_left].
  - left. split; [constructor|auto].
  - destruct (m0 <? x.(Asr))%Z eqn:Hlt.
    + apply Z.ltb_lt in Hlt. specialize (IH x.(Asr) x.(AF_FormatID)).
      destruct (fold_left _ l _) as [m id].
      destruct IH as [(Hall & -> & ->)|(l1 & af & l2 & -> & Hgt & -> & -> & H1 & H2)].
      * right. exists [], x, l. split; [reflexivity|]. split; [exact Hlt|].
        split; [reflexivity|]. split; [reflexivity|]. split; [constructor|exact Hall].
      * right. exists (x :: l1), af, l2. split; [reflexivity|]. split; [lia|].
        split; [reflexivity|]. split; [reflexivity|].
        split; [constructor; [exact Hgt|exact H1]|exact H2].
    + apply Z.ltb_ge in Hlt. specialize (IH m0 id0).
      destruct (fold_left _ l _) as [m id].
      destruct IH as [(Hall & -> & ->)|(l1 & af & l2 & -> & Hgt & -> & -> & H1 & H2)].
      * left. split; [constructor; [lia|exact Hall]|auto].
      * right. exists (x :: l1), af, l2. split; [reflexivity|]. split; [exact Hgt|].
        split; [reflexivity|]. split; [reflexivity|].
        split; [constructor; [lia|exact H1]|exact H2].
Qed.

Lemma max_audio_stable (l : list AudioFormat) (m : Z) (id : string) :
  Forall (fun af => (af.(Asr) <= m)%Z) l ->
  fold_left (fun '(maxAsr, maxAFormatId) (af : AudioFormat) =>
    if (maxAsr <? af.(Asr))%Z then (af.(Asr), af.(AF_FormatID)) else (maxAsr, maxAFormatId))
    l (m, id) = (m, id).
Proof.
  revert m id. induction l as [|x l IH]; intros m id Hall; [reflexivity|].
  inversion Hall as [|? ? Hx Hl]; subst. cbn [fold_left].
  replace (m <? x.(Asr))%Z with false by (symmetry; apply Z.ltb_ge; lia). apply IH, Hl.
Qed.

(** X17: [max_audio] (the audio id paired with every video token) is
    [(0, "")] when no audio extension is configured or no optimal audio
    format has a positive sample rate; otherwise it is the highest sample
    rate and the source id of the FIRST format that has it. *)
Theorem max_audio_spec (audioExts : list string) (afs : list AudioFormat) :
  let '(maxAsr, maxAFormatId) := max_audio audioExts afs in
  (audioExts = [] /\ maxAsr = 0%Z /\ maxAFormatId = "") \/
  (audioExts <> [] /\
   ((Forall (fun af => (af.(Asr) <= 0)%Z) afs /\ maxAsr = 0%Z /\ maxAFormatId = "") \/
    (exists l1 af l2, afs = (l1 ++ af :: l2)%list /\ (0 < af.(Asr))%Z /\
       maxAsr = af.(Asr) /\ maxAFormatId = af.(AF_FormatID) /\
       Forall (fun x => (x.(Asr) < maxAsr)%Z) l1 /\
       Forall (fun x => (x.(Asr) <= maxAsr)%Z) l2))).
Proof.
  unfold max_audio. destruct audioExts as [|e exts]; cbn [fold_left]; [left; repeat split|].
  pose proof (max_audio_inner afs 0%Z "") as Hi.
  destruct (fold_left _ afs (0%Z, "")) as [m id] eqn:Hf.
  assert (Hall : Forall (fun af => (af.(Asr) <= m)%Z) afs).
  { destruct Hi as [(Hall & -> & _)|(l1 & af & l2 & -> & _ & -> & _ & H1 & H2)]; [exact Hall|].
    apply Forall_app. split; [eapply Forall_impl; [exact H1|]; intros y Hy; cbv beta in Hy; lia|].
    constructor; [lia|exact H2]. }
  assert (Hs : forall l : list string, fold_left (fun acc (_ : string) =>
      fold_left (fun '(maxAsr, maxAFormatId) (af : AudioFormat) =>
        if (maxAsr <? af.(Asr))%Z then (af.(Asr), af.(AF_FormatID)) else (maxAsr, maxAFormatId))
        afs acc) l (m, id) = (m, id)).
  { induction l as [|x l IH]; [reflexivity|]. cbn [fold_left].
    rewrite max_audio_stable by exact Hall. exact IH. }
  rewrite Hs. cbn [fst]. right. split; [discriminate|].
  destruct Hi as [(Hall' & -> & ->)|Hex]; [left; auto|right; exact Hex].
Qed.

(* ------------------------------------------------------------------ *)
(** ** The metadata cache *)

(** X18: once a [GetVideoInfo] call has obtained the yt-dlp output
    (from the cache or by running the command) and could write the cache,
    a later call on the same URL whose cache read succeeds returns the
    same result and leaves the file store unchanged, without running the
    command. *)
Theorem GetVideoInfo_cached (lib : GoLib) (cfg : Config) (env env' : MetaEnv)
        (fs : gmap string string) (url : string) :
  env.(cache_write_err) = false -> env'.(cache_read_err) = false ->
  (executeYtdlpCommand lib cfg env fs url).2.2 = None ->
  GetVideoInfo lib cfg env' (GetVideoInfo lib cfg env fs url).1 url = GetVideoInfo lib cfg env fs url.
Proof.
  intros Hw Hr. unfold GetVideoInfo, executeYtdlpCommand, doExecuteYtdlpCommand.
  destruct (CheckUrl lib url) as [[u videoID] [err|]]; cbn [fst snd];
    [intros Hn; discriminate Hn|].
  rewrite Hw, Hr. cbn [negb].
  destruct (fs !! getVideoJsonPath lib cfg videoID) as [content|] eqn:Hc.
  - destruct (cache_read_err env); cbn [negb].
    + destruct (ytdlp_output env) as [e|out]; cbn [fst snd]; [intros Hn; discriminate Hn|].
      intros _. destruct (json_Unmarshal lib out) eqn:Hj; cbn [fst snd];
        rewrite lookup_insert_eq; cbn [negb]; rewrite Hj; reflexivity.
    + intros _. destruct (json_Unmarshal lib content) eqn:Hj; cbn [fst snd];
        rewrite Hc; cbn [negb]; rewrite Hj; reflexivity.
  - destruct (ytdlp_output env) as [e|out]; cbn [fst snd]; [intros Hn; discriminate Hn|].
    intros _. destruct (json_Unmarshal lib out) eqn:Hj; cbn [fst snd];
      rewrite lookup_insert_eq; cbn [negb]; rewrite Hj; reflexivity.
Qed.

(* ------------------------------------------------------------------ *)
(** ** Progress lines *)

Lemma str_app_assoc (a b c : string) : (a +:+ b) +:+ c = a +:+ (b +:+ c).
Proof. induction a as [|x a IH]; [reflexivity|exact (f_equal (String x) IH)]. Qed.

Lemma span_app (p : ascii -> bool) (s d r : string) : span p s = (d, r) -> s = d +:+ r.
Proof.
  revert d r. induction s as [|c s IH]; intros d r; cbn.
  - intros E; inversion E; reflexivity.
  - destruct (p c); [|intros E; inversion E; reflexivity].
    destruct (span p s) as [d' r'] eqn:Hs. intros E; inversion E; subst.
    exact (f_equal (String c) (IH d' r eq_refl)).
Qed.

Lemma span_all (p : ascii -> bool) (s d r : string) : span p s = (d, r) -> all_chars p d = true.
Proof.
  revert d r. induction s as [|c s IH]; intros d r; cbn.
  - intros E; inversion E; reflexivity.
  - destruct (p c) eqn:Hp; [|intros E; inversion E; reflexivity].
    destruct (span p s) as [d' r'] eqn:Hs. intros E; inversion E; subst.
    cbn. rewrite Hp. exact (IH d' r eq_refl).
Qed.

Lemma digit_run_app (s d r : string) :
  digit_run s = (d, r) -> s = d +:+ r /\ all_digits d = true.
Proof.
  revert d r. induction s as [|c s IH]; intros d r; cbn.
  - intros E; inversion E; split; reflexivity.
  - destruct (is_digit c) eqn:Hd; [|intros E; inversion E; split; reflexivity].
    destruct (digit_run s) as [d' r'] eqn:Hs. intros E; inversion E; subst.
    destruct (IH d' r eq_refl) as [-> Ha]. split; [reflexivity|cbn; rewrite Hd, Ha; reflexivity].
Qed.

Lemma HasPrefix_app (s p : string) : HasPrefix s p = true -> exists r, s = p +:+ r.
Proof.
  revert s. induction p as [|c p IH]; intros s; cbn.
  - intros _. exists s. reflexivity.
  - destruct s as [|c' s]; [discriminate|].
    intros H. apply andb_prop in H. destruct H as [Hc Hp].
    apply Ascii.eqb_eq in Hc. subst c'.
    destruct (IH s Hp) as [r ->]. exists r. reflexivity.
Qed.

Lemma regex_find_app (m : string -> option string) (s x : string) :
  regex_find m s = Some x -> exists pre t, s = pre +:+ t /\ m t = Some x.
Proof.
  induction s as [|c s IH]; cbn; destruct (m _) as [y|] eqn:Hm.
  - intros E; inversion E; subst. exists "", "". split; [reflexivity|exact Hm].
  - discriminate.
  - intros E; inversion E; subst. exists "", (String c s). split; [reflexivity|exact Hm].
  - intros H. destruct (IH H) as (pre & t & -> & Ht).
    exists (String c pre), t. split; [reflexivity|exact Ht].
Qed.

Lemma nonempty_of_eqb (s : string) : String.eqb s "" = false -> s <> "".
Proof. intros H E. subst. discriminate H. Qed.

Lemma progress_at_app (t x : string) :
  progress_at t = Some x ->
  exists d1 d2 post, t = x +:+ "%" +:+ post /\ x = d1 +:+ "." +:+ d2 /\
    d1 <> "" /\ d2 <> "" /\ all_digits d1 = true /\ all_digits d2 = true.
Proof.
  unfold progress_at.
  destruct (digit_run t) as [d1 r1] eqn:H1.
  destruct (digit_run_app _ _ _ H1) as [-> Ha1].
  destruct (String.eqb d1 "") eqn:E1; [discriminate|].
  destruct r1 as [|c r2]; [discriminate|].
  destruct (Ascii.eqb c ".") eqn:Ec; [|discriminate]. apply Ascii.eqb_eq in Ec. subst c.
  destruct (digit_run r2) as [d2 r3] eqn:H2.
  destruct (digit_run_app _ _ _ H2) as [-> Ha2].
  destruct (String.eqb d2 "") eqn:E2; [discriminate|].
  destruct r3 as [|c' post]; [discriminate|].
  destruct (Ascii.eqb c' "%") eqn:Ec'; [|discriminate]. apply Ascii.eqb_eq in Ec'. subst c'.
  intros E; inversion E; subst x.
  exists d1, d2, post. repeat split; auto using nonempty_of_eqb.
  rewrite !str_app_assoc. reflexivity.
Qed.

Lemma speed_at_app (t x : string) :
  speed_at t = Some x ->
  exists w n w2 u i post, t = "at" +:+ w +:+ x +:+ post /\
    w <> "" /\ all_chars is_space w = true /\
    x = n +:+ w2 +:+ u +:+ i +:+ "B/s" /\ n <> "" /\ all_chars is_num_dot n = true /\
    all_chars is_space w2 = true /\
    (u = "" \/ exists c, u = String c "" /\ is_unit_prefix c = true) /\ (i = "" \/ i = "i").
Proof.
  unfold speed_at.
  destruct t as [|a [|t0 r]]; try discriminate.
  destruct (Ascii.eqb a "a" && Ascii.eqb t0 "t") eqn:Eat; [|discriminate].
  apply andb_prop in Eat. destruct Eat as [Ea Et].
  apply Ascii.eqb_eq in Ea, Et. subst a t0.
  destruct (span is_space r) as [w1 r1] eqn:H1.
  pose proof (span_all _ _ _ _ H1) as Hw1. apply span_app in H1. subst r.
  destruct (String.eqb w1 "") eqn:E1; [discriminate|].
  destruct (span is_num_dot r1) as [n r2] eqn:H2.
  pose proof (span_all _ _ _ _ H2) as Hn. apply span_app in H2. subst r1.
  destruct (String.eqb n "") eqn:E2; [discriminate|].
  destruct (span is_space r2) as [w2 r3] eqn:H3.
  pose proof (span_all _ _ _ _ H3) as Hw2. apply span_app in H3. subst r2.
  destruct (match r3 with
            | String c r' => if is_unit_prefix c then (String c "", r') else ("", r3)
            | EmptyString => ("", r3)
            end) as [u r4] eqn:H4.
  assert (R3 : r3 = u +:+ r4 /\ (u = "" \/ exists c, u = String c "" /\ is_unit_prefix c = true)).
  { destruct r3 as [|c r']; [inversion H4; split; [reflexivity|left; reflexivity]|].
    destruct (is_unit_prefix c) eqn:Hu; inversion H4; subst; split; try reflexivity.
    - right. exists c. split; [reflexivity|exact Hu].
    - left. reflexivity. }
  clear H4. destruct R3 as [-> Hu].
  destruct (match r4 with
            | String c r' => if Ascii.eqb c "i" then ("i", r') else ("", r4)
            | EmptyString => ("", r4)
            end) as [i r5] eqn:H5.
  assert (R4 : r4 = i +:+ r5 /\ (i = "" \/ i = "i")).
  { destruct r4 as [|c r']; [inversion H5; split; [reflexivity|left; reflexivity]|].
    destruct (Ascii.eqb c "i") eqn:Ei; inversion H5; subst.
    - apply Ascii.eqb_eq in Ei. subst c. split; [reflexivity|right; reflexivity].
    - split; [reflexivity|left; reflexivity]. }
  clear H5. destruct R4 as [-> Hi].
  destruct (HasPrefix r5 "B/s") eqn:Hb; [|discriminate].
  destruct (HasPrefix_app _ _ Hb) as [post ->].
  intros E; inversion E; subst x.
  exists w1, n, w2, u, i, post.
  split; [rewrite !str_app_assoc; reflexivity|].
  split; [apply nonempty_of_eqb; exact E1|].
  split; [exact Hw1|]. split; [reflexivity|].
  split; [apply nonempty_of_eqb; exact E2|].
  repeat split; assumption.
Qed.

Lemma eta_at_app (t x : string) :
  eta_at t = Some x ->
  exists w d1 d2 post, t = "ETA" +:+ w +:+ x +:+ post /\
    w <> "" /\ all_chars is_space w = true /\
    x = d1 +:+ ":" +:+ d2 /\ d1 <> "" /\ d2 <> "" /\
    all_digits d1 = true /\ all_digits d2 = true.
Proof.
  unfold eta_at.
  destruct t as [|e [|t0 [|a r]]]; try discriminate.
  destruct (Ascii.eqb e "E" && Ascii.eqb t0 "T" && Ascii.eqb a "A") eqn:Eeta; [|discriminate].
  apply andb_prop in Eeta. destruct Eeta as [Eet Ea]. apply andb_prop in Eet. destruct Eet as [Ee Et].
  apply Ascii.eqb_eq in Ee, Et, Ea. subst e t0 a.
  destruct (span is_space r) as [w r1] eqn:H1.
  pose proof (span_all _ _ _ _ H1) as Hw. apply span_app in H1. subst r.
  destruct (String.eqb w "") eqn:E1; [discriminate|].
  destruct (digit_run r1) as [d1 r2] eqn:H2.
  destruct (digit_run_app _ _ _ H2) as [-> Ha1].
  destruct (String.eqb d1 "") eqn:E2; [discriminate|].
  destruct r2 as [|c r3]; [discriminate|].
  destruct (Ascii.eqb c ":") eqn:Ec; [|discriminate]. apply Ascii.eqb_eq in Ec. subst c.
  destruct (digit_run r3) as [d2 post] eqn:H3.
  destruct (digit_run_app _ _ _ H3) as [-> Ha2].
  destruct (String.eqb d2 "") eqn:E3; [discriminate|].
  intros E; inversion E; subst x.
  exists w, d1, d2, post. repeat split; auto using nonempty_of_eqb.
  rewrite !str_app_assoc. reflexivity.
Qed.

Lemma progress_found (line m : string) :
  regex_find progress_at line = Some m ->
  exists pre d1 d2 post, line = pre +:+ m +:+ "%" +:+ post /\ m = d1 +:+ "." +:+ d2 /\
    d1 <> "" /\ d2 <> "" /\ all_digits d1 = true /\ all_digits d2 = true.
Proof.
  intros H. destruct (regex_find_app _ _ _ H) as (pre & t & -> & Ht).
  destruct (progress_at_app _ _ Ht) as (d1 & d2 & post & -> & Hr).
  exists pre, d1, d2, post. split; [reflexivity|exact Hr].
Qed.

Lemma speed_found (line m : string) :
  regex_find speed_at line = Some m ->
  exists pre w n w2 u i post, line = pre +:+ "at" +:+ w +:+ m +:+ post /\
    w <> "" /\ all_chars is_space w = true /\
    m = n +:+ w2 +:+ u +:+ i +:+ "B/s" /\ n <> "" /\ all_chars is_num_dot n = true /\
    all_chars is_space w2 = true /\
    (u = "" \/ exists c, u = String c "" /\ is_unit_prefix c = true) /\ (i = "" \/ i = "i").
Proof.
  intros H. destruct (regex_find_app _ _ _ H) as (pre & t & -> & Ht).
  destruct (speed_at_app _ _ Ht) as (w & n & w2 & u & i & post & -> & Hr).
  exists pre, w, n, w2, u, i, post. split; [reflexivity|exact Hr].
Qed.

Lemma eta_found (line m : string) :
  regex_find eta_at line = Some m ->
  exists pre w d1 d2 post, line = pre +:+ "ETA" +:+ w +:+ m +:+ post /\
    w <> "" /\ all_chars is_space w = true /\
    m = d1 +:+ ":" +:+ d2 /\ d1 <> "" /\ d2 <> "" /\
    all_digits d1 = true /\ all_digits d2 = true.
Proof.
  intros H. destruct (regex_find_app _ _ _ H) as (pre & t & -> & Ht).
  destruct (eta_at_app _ _ Ht) as (w & d1 & d2 & post & -> & Hr).
  exists pre, w, d1, d2, post. split; [reflexivity|exact Hr].
Qed.

(** X19: [parseProgressLine] leaves the task unchanged unless the line
    contains ["% of"], and changes only [Progress], [Speed] and [ETA].
    A new [Progress] is the parse of a [d.d] decimal that stands right
    before a [%] in the line. A new [Speed] is a piece of the line that
    follows ["at"] and one or more blanks ([\s]) and reads: digits and
    dots (at least one), blanks, an optional [K], [M], [G], [T] or [P],
    an optional [i], then ["B/s"]. A new [ETA] is a [d:d] piece of the
    line that follows ["ETA"] and one or more blanks. *)
Theorem parseProgressLine_spec (lib : GoLib) (task : DownloadTask) (line : string) :
  let t' := parseProgressLine lib task line in
  (Contains line "% of" = false -> t' = task) /\
  t' = with_eta (with_speed (with_progress task t'.(Progress)) t'.(Speed)) t'.(ETA) /\
  (t'.(Progress) = task.(Progress) \/
   exists pre p d1 d2 post, line = pre +:+ p +:+ "%" +:+ post /\ p = d1 +:+ "." +:+ d2 /\
     d1 <> "" /\ d2 <> "" /\ all_digits d1 = true /\ all_digits d2 = true /\
     lib.(ParseFloat) p = Some t'.(Progress)) /\
  (t'.(Speed) = task.(Speed) \/
   exists pre w n w2 u i post, line = pre +:+ "at" +:+ w +:+ t'.(Speed) +:+ post /\
     w <> "" /\ all_chars is_space w = true /\
     t'.(Speed) = n +:+ w2 +:+ u +:+ i +:+ "B/s" /\ n <> "" /\ all_chars is_num_dot n = true /\
     all_chars is_space w2 = true /\
     (u = "" \/ exists c, u = String c "" /\ is_unit_prefix c = true) /\ (i = "" \/ i = "i")) /\
  (t'.(ETA) = task.(ETA) \/
   exists pre w d1 d2 post, line = pre +:+ "ETA" +:+ w +:+ t'.(ETA) +:+ post /\
     w <> "" /\ all_chars is_space w = true /\
     t'.(ETA) = d1 +:+ ":" +:+ d2 /\ d1 <> "" /\ d2 <> "" /\
     all_digits d1 = true /\ all_digits d2 = true).
Proof.
  cbv zeta. unfold parseProgressLine.
  destruct (Contains line "% of") eqn:Hc.
  2:{ split; [reflexivity|]. split; [destruct task; reflexivity|].
      split; [left; reflexivity|]. split; left; reflexivity. }
  split; [discriminate|].
  destruct (regex_find progress_at line) as [m|] eqn:Hp;
    [destruct (ParseFloat lib m) as [pr|] eqn:Hpf|];
    destruct (regex_find speed_at line) as [sp|] eqn:Hs;
    destruct (regex_find eta_at line) as [e|] eqn:He;
    destruct task; unfold with_progress, with_speed, with_eta; cbn [Progress Speed ETA];
    (split; [reflexivity|]);
    repeat split; try (left; reflexivity); right;
    first
      [ destruct (progress_found _ _ Hp) as (pre & d1 & d2 & post & Hl & Hr);
        exists pre, m, d1, d2, post; split; [exact Hl|];
        destruct Hr as (H2 & H3 & H4 & H5 & H6); repeat split; assumption
      | destruct (speed_found _ _ Hs) as (pre & w & n & w2 & u & i & post & Hr);
        exists pre, w, n, w2, u, i, post; exact Hr
      | destruct (eta_found _ _ He) as (pre & w & d1 & d2 & post & Hr);
        exists pre, w, d1, d2, post; exact Hr ].
Qed.

(* ------------------------------------------------------------------ *)
(** ** The further properties at concrete inputs *)

Lemma cancel_then_finish_witness :
  sample_running.(downloads) !! sample_task.(ID) = Some (with_state_only sample_task "downloading") /\
  (with_state_only sample_task "downloading").(State) = "downloading" /\
  (with_state_only sample_task "downloading").(HasCancel) = true /\
  exists t', (CancelDownload sample_running sample_task.(ID) 5).1.(downloads) !! sample_task.(ID) = Some t' /\
    (runDownload_finish sample_lib sample_cfg env_success 6 t').(State) = "failed" /\
    (runDownload_finish sample_lib sample_cfg env_success 6 t').(Error) = "Download cancelled by user" /\
    (runDownload_finish sample_lib sample_cfg env_success 6 t').(EndTime) = 6%Z.
Proof.
  assert (H1 : sample_running.(downloads) !! sample_task.(ID)
               = Some (with_state_only sample_task "downloading")) by (vm_compute; reflexivity).
  assert (H2 : (with_state_only sample_task "downloading").(State) = "downloading") by reflexivity.
  assert (H3 : (with_state_only sample_task "downloading").(HasCancel) = true) by (vm_compute; reflexivity).
  split; [exact H1|]. split; [exact H2|]. split; [exact H3|].
  exact (cancel_then_finish sample_lib sample_cfg env_success sample_running sample_task.(ID)
           5 6 _ H1 H2 H3).
Defined.

Lemma runDownload_completed_url_witness :
  FromHex sample_task.(ID) = (s3Location_of sample_lib sample_task, None) /\
  (runDownload sample_lib sample_cfg env_success 1 2 sample_task).(State) = "completed" /\
  (runDownload sample_lib sample_cfg env_success 1 2 sample_task).(DownloadUrl)
    = getDownloadUrl sample_cfg (s3Location_of sample_lib sample_task).
Proof.
  assert (H1 : FromHex sample_task.(ID) = (s3Location_of sample_lib sample_task, None))
    by (vm_compute; reflexivity).
  assert (H2 : (runDownload sample_lib sample_cfg env_success 1 2 sample_task).(State) = "completed")
    by (vm_compute; reflexivity).
  split; [exact H1|]. split; [exact H2|].
  exact (runDownload_completed_url sample_lib sample_cfg env_success 1 2 sample_task H1 H2).
Defined.

Lemma audio_groups_tokens_witness :
  Forall (fun e => no_us e = true) ["m4a"] /\
  Forall (fun af => no_us af.(AF_FormatID) = true /\ int64_range af.(Asr))
         [mkAudioFormat "140" "m4a" 44100] /\
  In (mkAudioFormatGroup "m4a" [mkAudioFormat (buildAudioFormatID "m4a" 44100 "140") "m4a" 44100])
     (audio_groups ["m4a"] [mkAudioFormat "140" "m4a" 44100]) /\
  ParseAudioFormatID (buildAudioFormatID "m4a" 44100 "140") = ("m4a", 44100%Z, "140", None).
Proof.
  assert (He : Forall (fun e => no_us e = true) ["m4a"]) by (repeat constructor).
  assert (Ha : Forall (fun af => no_us af.(AF_FormatID) = true /\ int64_range af.(Asr))
                      [mkAudioFormat "140" "m4a" 44100])
    by (repeat constructor; unfold int64_range; cbn; lia).
  assert (Hg : In (mkAudioFormatGroup "m4a" [mkAudioFormat (buildAudioFormatID "m4a" 44100 "140") "m4a" 44100])
                  (audio_groups ["m4a"] [mkAudioFormat "140" "m4a" 44100])) by (left; reflexivity).
  split; [exact He|]. split; [exact Ha|]. split; [exact Hg|].
  destruct (audio_groups_tokens ["m4a"] [mkAudioFormat "140" "m4a" 44100] He Ha _ Hg) as [_ Hf].
  inversion Hf as [|f af l1 l2 (_ & _ & Hp) _]. exact Hp.
Defined.

Lemma video_groups_tokens_witness :
  Forall (fun e => no_us e = true) ["mp4"] /\
  Forall (fun vf => no_us vf.(Resolution) = true /\ no_us vf.(VF_FormatID) = true)
         [mkVideoFormat "137" "mp4" "1920x1080"] /\
  no_us "140" = true /\
  In (mkVideoFormatGroup "mp4" [mkVideoFormat (buildVideoFormatID "mp4" "1920x1080" "137" "140") "mp4" "1920x1080"])
     (video_groups ["mp4"] [mkVideoFormat "137" "mp4" "1920x1080"] "140") /\
  ParseVideoFormatID (buildVideoFormatID "mp4" "1920x1080" "137" "140") = ("mp4", "1920x1080", "137+140", None).
Proof.
  assert (He : Forall (fun e => no_us e = true) ["mp4"]) by (repeat constructor).
  assert (Hv : Forall (fun vf => no_us vf.(Resolution) = true /\ no_us vf.(VF_FormatID) = true)
                      [mkVideoFormat "137" "mp4" "1920x1080"]) by (repeat constructor).
  assert (Ha : no_us "140" = true) by reflexivity.
  assert (Hg : In (mkVideoFormatGroup "mp4" [mkVideoFormat (buildVideoFormatID "mp4" "1920x1080" "137" "140") "mp4" "1920x1080"])
                  (video_groups ["mp4"] [mkVideoFormat "137" "mp4" "1920x1080"] "140")) by (left; reflexivity).
  split; [exact He|]. split; [exact Hv|]. split; [exact Ha|]. split; [exact Hg|].
  destruct (video_groups_tokens ["mp4"] [mkVideoFormat "137" "mp4" "1920x1080"] "140" He Hv Ha _ Hg)
    as [_ Hf].
  inversion Hf as [|f vf l1 l2 (_ & _ & Hp) _]. exact Hp.
Defined.

Lemma GetVideoInfo_cached_witness :
  (env_output "{}").(cache_write_err) = false /\ (env_output "{}").(cache_read_err) = false /\
  (executeYtdlpCommand sample_lib sample_cfg (env_output "{}") ∅ sample_url).2.2 = None /\
  GetVideoInfo sample_lib sample_cfg (env_output "{}")
    (GetVideoInfo sample_lib sample_cfg (env_output "{}") ∅ sample_url).1 sample_url
  = GetVideoInfo sample_lib sample_cfg (env_output "{}") ∅ sample_url.
Proof.
  assert (Hw : (env_output "{}").(cache_write_err) = false) by reflexivity.
  assert (Hr : (env_output "{}").(cache_read_err) = false) by reflexivity.
  assert (Hx : (executeYtdlpCommand sample_lib sample_cfg (env_output "{}") ∅ sample_url).2.2 = None)
    by (vm_compute; reflexivity).
  split; [exact Hw|]. split; [exact Hr|]. split; [exact Hx|].
  exact (GetVideoInfo_cached sample_lib sample_cfg (env_output "{}") (env_output "{}") ∅ sample_url Hw Hr Hx).
Defined.
